(** * The exploratory-data-analysis script of VISTA (src/VISTA/app.py)

    The file src/VISTA/app.py holds two programs.  Lines 1-54 are a Flask
    form application; lines 57-216 are the script "project da.py", a
    straight-line exploratory analysis of a table of movies.  This
    development embeds the script, and after it the routes of the form
    application (module [Portal]).

    The script is a sequence of statements over one data frame [df]: it
    loads the table (or builds a five-row one), prints reports, draws
    plots and prints five fixed sentences.  It is embedded as a computation
    in a writer-and-error monad: the trace is what the run prints and
    draws, the result is either [tt] or the exception that stopped it.

    The numbers of the script are binary floating-point numbers inside
    pandas, numpy, seaborn and matplotlib.  Here they are exact rationals
    ([Q]); rounding is outside the model.  A missing cell (NaN) is [None].
    Two results are not rational: a correlation coefficient is kept as a
    numerator and the square of its denominator (see [fcorr], with its
    real value [corr_R]), and the series [np.log1p(df['budget'])] is kept
    as the series it is the logarithm of (see [series]).

    What the library calls compute ([describe], [corr], [value_counts],
    [sort_values], [boxplot], [histplot]) is written out from the
    algorithms of the libraries, next to the call that uses it.  The
    smoothed density curve of [histplot(kde=True)] and the style settings
    of lines 68-70 carry no statement below and have no counterpart here.
    A drawing call is taken to succeed once the columns it reads are
    there and numeric. *)

From Stdlib Require Import String Ascii Bool Arith ZArith QArith Qround Qminmax Lia Psatz List.
From Stdlib Require Import Sorting.Permutation Sorting.Sorted Sorting.Mergesort Orders.
From Stdlib Require Import Reals Qreals.
Import ListNotations.

Local Open Scope string_scope.
Local Open Scope Q_scope.

(** * Definitions *)

(** ** Floating-point results that need not be finite *)

(** The result of a float division: finite, infinite or not-a-number. *)
Inductive fval : Type :=
| Fin (q : Q)
| Inf (negative : bool)
| NaN.

(** [a / b] on float arrays: no exception, 0/0 is NaN and x/0 is infinite. *)
Definition true_divide (a b : Q) : fval :=
  if Qeq_bool b 0
  then (if Qeq_bool a 0 then NaN else Inf (negb (Qle_bool 0 a)))
  else Fin (a / b).

(** [v * k] for a finite, positive [k]. *)
Definition fscale (v : fval) (k : Q) : fval :=
  match v with
  | Fin q => Fin (q * k)
  | Inf s => Inf s
  | NaN => NaN
  end.

(** ** Data frames *)

Inductive dtype : Type := DNum | DObj | DBool.

(** A column with its dtype: int64/float64 cells are rationals, [None] is
    the missing marker. *)
Inductive column : Type :=
| NumCol (vs : list (option Q))
| ObjCol (vs : list (option string))
| BoolCol (vs : list bool).

(** The columns in their order, by name. *)
Definition DataFrame : Type := list (string * column).

Definition col_dtype (c : column) : dtype :=
  match c with NumCol _ => DNum | ObjCol _ => DObj | BoolCol _ => DBool end.

Definition col_len (c : column) : nat :=
  match c with
  | NumCol vs => length vs
  | ObjCol vs => length vs
  | BoolCol vs => length vs
  end.

Definition count_none {A : Type} (vs : list (option A)) : nat :=
  length (filter (fun v => match v with None => true | Some _ => false end) vs).

(** [c.isnull().sum()] *)
Definition col_missing (c : column) : nat :=
  match c with
  | NumCol vs => count_none vs
  | ObjCol vs => count_none vs
  | BoolCol _ => 0%nat
  end.

Definition col_head (k : nat) (c : column) : column :=
  match c with
  | NumCol vs => NumCol (firstn k vs)
  | ObjCol vs => ObjCol (firstn k vs)
  | BoolCol vs => BoolCol (firstn k vs)
  end.

(** [len(df)]: the length of the index, which every column shares. *)
Definition len (df : DataFrame) : nat :=
  match df with
  | [] => 0%nat
  | (_, c) :: _ => col_len c
  end.

(** [df.shape] *)
Definition shape (df : DataFrame) : nat * nat := (len df, length df).

(** [df.head()] *)
Definition head (df : DataFrame) : DataFrame :=
  map (fun nc => (fst nc, col_head 5 (snd nc))) df.

(** The table of [df.info()]: name, non-null count, dtype. *)
Definition info (df : DataFrame) : list (string * nat * dtype) :=
  map (fun nc => (fst nc, (col_len (snd nc) - col_missing (snd nc))%nat,
                  col_dtype (snd nc))) df.

Fixpoint lookup (name : string) (df : DataFrame) : option column :=
  match df with
  | [] => None
  | (n, c) :: rest => if String.eqb n name then Some c else lookup name rest
  end.

Definition has_column (name : string) (df : DataFrame) : bool :=
  match lookup name df with Some _ => true | None => false end.

(** All columns have the length of the index and no name occurs twice. *)
Definition well_formed (df : DataFrame) : Prop :=
  NoDup (map fst df) /\ Forall (fun nc => col_len (snd nc) = len df) df.

(** [dropna] on a numeric series. *)
Fixpoint present (vs : list (option Q)) : list Q :=
  match vs with
  | [] => []
  | Some v :: rest => v :: present rest
  | None :: rest => present rest
  end.

(** ** Exceptions and the file on disk *)

Inductive exn : Type :=
| FileNotFoundError
| PermissionError
| EmptyDataError
| ParserError
| UnicodeDecodeError
| KeyError (missing : list string)
| TypeError (name : string).

(** What [pd.read_csv('tmdb_movies.csv')] finds on disk. *)
Inductive csv_file : Type :=
| NoFile
| BadFile (e : exn)
| GoodFile (df : DataFrame).

Definition read_csv (f : csv_file) : exn + DataFrame :=
  match f with
  | NoFile => inl FileNotFoundError
  | BadFile e => inl e
  | GoodFile df => inr df
  end.

(** The errors [read_csv] raises for a file that is there but is no table. *)
Definition unparsable (e : exn) : Prop :=
  e = EmptyDataError \/ e = ParserError \/ e = UnicodeDecodeError.

(** ** Sums, order statistics and quantiles *)

Definition sumQ (xs : list Q) : Q := fold_right Qplus 0 xs.

(** A count as a number. *)
Definition Qnat (n : nat) : Q := inject_Z (Z.of_nat n).

(** The mean of a non-empty array. *)
Definition mean (xs : list Q) : Q := sumQ xs / Qnat (length xs).

(** Sum of squared deviations from the mean. *)
Definition ssq_dev (xs : list Q) : Q :=
  let m := mean xs in sumQ (map (fun x => (x - m) * (x - m)) xs).

(** Sum of the products of the deviations of the two coordinates. *)
Definition co_dev (ps : list (Q * Q)) : Q :=
  let mx := mean (map fst ps) in
  let my := mean (map snd ps) in
  sumQ (map (fun p => (fst p - mx) * (snd p - my)) ps).

Module QOrder <: TotalLeBool.
Definition t : Type := Q.
Definition leb : Q -> Q -> bool := Qle_bool.
Lemma leb_total : forall x y, leb x y = true \/ leb y x = true.
Proof.
  intros x y. unfold leb. rewrite !Qle_bool_iff.
  destruct (Qlt_le_dec x y) as [H | H]; [left; apply Qlt_le_weak, H | right; exact H].
Qed.
End QOrder.

Module QSort := Sort QOrder.

(** [np.sort] *)
Definition np_sort (xs : list Q) : list Q := QSort.sort xs.

(** The least and the greatest element of the non-empty array [x :: xs]. *)
Definition np_min (x : Q) (xs : list Q) : Q := fold_right Qmin x xs.
Definition np_max (x : Q) (xs : list Q) : Q := fold_right Qmax x xs.

(** The rank below the virtual index [p (n - 1)] of a quantile. *)
Definition rank (p : Q) (n : nat) : Z := Qfloor (p * inject_Z (Z.of_nat n - 1)).

(** [np.percentile(xs, 100 p)] with the default linear interpolation, for
    a non-empty [xs]: the virtual index is [p (n - 1)], the ranks below
    and above it are read from the sorted array (the upper one clipped to
    the last rank) and interpolated by the fractional part. *)
Definition quantile (p : Q) (xs : list Q) : Q :=
  let s := np_sort xs in
  let n := Z.of_nat (length s) in
  let h := p * inject_Z (n - 1) in
  let i := Qfloor h in
  let g := h - inject_Z i in
  let lo := nth (Z.to_nat i) s 0 in
  let hi := nth (Z.to_nat (Z.min (i + 1) (n - 1))) s 0 in
  lo + (hi - lo) * g.


(** ** [describe] *)

(** One column of [describe()].  The standard deviation is kept as its
    square [d_var] (the sample variance, ddof = 1). *)
Record describe_row : Type := {
  d_count : nat;
  d_mean : fval;
  d_var : fval;
  d_min : fval;
  d_q25 : fval;
  d_q50 : fval;
  d_q75 : fval;
  d_max : fval
}.

Definition describe_series (vs : list (option Q)) : describe_row :=
  let xs := present vs in
  let n := length xs in
  match xs with
  | [] => {| d_count := 0; d_mean := NaN; d_var := NaN; d_min := NaN;
             d_q25 := NaN; d_q50 := NaN; d_q75 := NaN; d_max := NaN |}
  | x :: rest =>
      {| d_count := n;
         d_mean := Fin (mean xs);
         d_var := true_divide (ssq_dev xs) (Qnat n - 1);
         d_min := Fin (np_min x rest);
         d_q25 := Fin (quantile (1 # 4) xs);
         d_q50 := Fin (quantile (1 # 2) xs);
         d_q75 := Fin (quantile (3 # 4) xs);
         d_max := Fin (np_max x rest) |}
  end.

(** ** Sorting a table by a count, descending *)

(** Sorting by a count, descending: rows with a larger count first, rows
    with the same count in the order they had.  This is the order of
    [value_counts]; [sort_values(ascending=False)] of line 129 sorts with
    numpy's quicksort, which fixes no order among rows with the same
    count, and the statements on the missing-value report use the order
    of the counts only. *)
Fixpoint insert_desc {A : Type} (key : A -> nat) (x : A) (l : list A) : list A :=
  match l with
  | [] => [x]
  | y :: r => if (key y <=? key x)%nat then x :: l else y :: insert_desc key x r
  end.

Definition sort_desc {A : Type} (key : A -> nat) (l : list A) : list A :=
  fold_right (insert_desc key) [] l.

Definition descending {A : Type} (key : A -> nat) (l : list A) : Prop :=
  StronglySorted (fun a b => (key b <= key a)%nat) l.

(** ** The missing-value report (lines 123-129) *)

Record missing_row : Type := {
  m_name : string;
  m_count : nat;
  m_pct : fval
}.

(** [df.isnull().sum()] *)
Definition missing_values (df : DataFrame) : list (string * nat) :=
  map (fun nc => (fst nc, col_missing (snd nc))) df.

(** [(missing_values / len(df)) * 100] *)
Definition missing_percentage (df : DataFrame) : list (string * fval) :=
  map (fun nk => (fst nk, fscale (true_divide (Qnat (snd nk)) (Qnat (len df))) 100))
      (missing_values df).

Definition missing_df (df : DataFrame) : list missing_row :=
  sort_desc m_count
    (map (fun p => {| m_name := fst (fst p); m_count := snd (fst p); m_pct := snd (snd p) |})
         (combine (missing_values df) (missing_percentage df))).

(** The row of the report for one column of a frame of [n] rows. *)
Definition report_row (n : nat) (nc : string * column) : missing_row :=
  {| m_name := fst nc;
     m_count := col_missing (snd nc);
     m_pct := fscale (true_divide (Qnat (col_missing (snd nc))) (Qnat n)) 100 |}.

(** ** [value_counts] *)

Inductive cell : Type :=
| CNum (q : Q)
| CStr (s : string)
| CBool (b : bool).

Definition cell_eqb (a b : cell) : bool :=
  match a, b with
  | CNum x, CNum y => Qeq_bool x y
  | CStr x, CStr y => String.eqb x y
  | CBool x, CBool y => Bool.eqb x y
  | _, _ => false
  end.

(** The non-missing cells of a column, in row order. *)
Definition cells (c : column) : list cell :=
  match c with
  | NumCol vs => map CNum (present vs)
  | ObjCol vs => flat_map (fun v => match v with Some s => [CStr s] | None => [] end) vs
  | BoolCol vs => map CBool vs
  end.

(** Count one more occurrence of [x]; a new value goes to the end, so the
    table keeps the values in first-seen order. *)
Fixpoint bump (x : cell) (acc : list (cell * nat)) : list (cell * nat) :=
  match acc with
  | [] => [(x, 1%nat)]
  | (y, n) :: r => if cell_eqb y x then (y, S n) :: r else (y, n) :: bump x r
  end.

Definition tally (xs : list cell) : list (cell * nat) :=
  fold_left (fun acc x => bump x acc) xs [].

(** [c.value_counts()]: occurrence counts of the distinct non-missing
    values, largest first, equal counts in first-seen order. *)
Definition value_counts (c : column) : list (cell * nat) :=
  sort_desc snd (tally (cells c)).

(** The number of cells equal to [k]. *)
Definition occurrences (k : cell) (xs : list cell) : nat :=
  length (filter (fun x => cell_eqb x k) xs).

(** The number of rows of a table of counts whose value equals [k], and
    the sum of their counts. *)
Definition rows_for (k : cell) (t : list (cell * nat)) : nat :=
  length (filter (fun e => cell_eqb (fst e) k) t).
Definition count_for (k : cell) (t : list (cell * nat)) : nat :=
  list_sum (map snd (filter (fun e => cell_eqb (fst e) k) t)).

(** A table of counts in which no value has two rows. *)
Definition one_row_each (t : list (cell * nat)) : Prop :=
  forall k, (rows_for k t <= 1)%nat.

(** ** The box plot (line 139) *)

(** [a < b] *)
Definition Qltb (a b : Q) : bool := negb (Qle_bool b a).

(** The number of elements below [v], and the number of elements up to
    [v]. *)
Definition below (v : Q) (l : list Q) : nat := length (filter (fun x => Qltb x v) l).
Definition upto (v : Q) (l : list Q) : nat := length (filter (fun x => Qle_bool x v) l).

(** What one box shows. *)
Record box_stats : Type := {
  b_q1 : Q;
  b_med : Q;
  b_q3 : Q;
  b_iqr : Q;
  b_whislo : Q;
  b_whishi : Q;
  b_fliers : list Q
}.

(** [matplotlib.cbook.boxplot_stats] on a non-empty array, which
    [sns.boxplot] calls per column with [whis = 1.5]: the whiskers end at
    the extreme data inside the fences [q1 - whis * iqr] and
    [q3 + whis * iqr], the fliers are the data beyond the whiskers. *)
Definition boxplot_stats (whis : Q) (x : list Q) : box_stats :=
  let q1 := quantile (1 # 4) x in
  let med := quantile (1 # 2) x in
  let q3 := quantile (3 # 4) x in
  let iqr := q3 - q1 in
  let loval := q1 - whis * iqr in
  let hival := q3 + whis * iqr in
  let whishi :=
    match filter (fun v => Qle_bool v hival) x with
    | [] => q3
    | w :: ws => let m := np_max w ws in if Qltb m q3 then q3 else m
    end in
  let whislo :=
    match filter (fun v => Qle_bool loval v) x with
    | [] => q1
    | w :: ws => let m := np_min w ws in if Qltb q1 m then q1 else m
    end in
  {| b_q1 := q1; b_med := med; b_q3 := q3; b_iqr := iqr;
     b_whislo := whislo; b_whishi := whishi;
     b_fliers := (filter (fun v => Qltb v whislo) x ++ filter (fun v => Qltb whishi v) x)%list |}.

(** The box of a column: missing cells are dropped, a column without a
    present cell has no box. *)
Definition box_of (vs : list (option Q)) : option box_stats :=
  match present vs with
  | [] => None
  | x => Some (boxplot_stats (3 # 2) x)
  end.

(** ** The histogram (lines 155-165) *)

Record histogram : Type := {
  h_edges : list Q;
  h_counts : list nat
}.

(** [np.histogram_bin_edges]: the range of the data, widened by a half on
    each side when it is a single point. *)
Definition outer_edges (x : Q) (xs : list Q) : Q * Q :=
  let first := np_min x xs in
  let last := np_max x xs in
  if Qeq_bool first last then (first - (1 # 2), last + (1 # 2)) else (first, last).

(** [np.linspace(first, last, bins + 1)] *)
Definition linspace (first last : Q) (bins : nat) : list Q :=
  map (fun i => first + Qnat i * ((last - first) / Qnat bins)) (seq 0 (S bins)).

(** The bin of a value inside [first, last]: the integer part of its
    position scaled to the number of bins, the value [last] itself going
    to the last bin. *)
Definition bin_index (first last : Q) (bins : nat) (v : Q) : nat :=
  let i := Z.to_nat (Qfloor ((v - first) / (last - first) * Qnat bins)) in
  if (i =? bins)%nat then (bins - 1)%nat else i.

(** [np.bincount] *)
Definition bincount (bins : nat) (idx : list nat) : list nat :=
  map (fun b => length (filter (fun i => (i =? b)%nat) idx)) (seq 0 bins).

(** The bars of [sns.histplot(x, bins=bins)] for the present cells [xs] of
    [x]; with no present cell the range is [0, 1], as in
    [np.histogram_bin_edges], and every bar is empty. *)
Definition np_histogram (bins : nat) (xs : list Q) : option histogram :=
  match xs with
  | [] => Some {| h_edges := linspace 0 1 bins; h_counts := bincount bins [] |}
  | x :: rest =>
      let (first, last) := outer_edges x rest in
      Some {| h_edges := linspace first last bins;
              h_counts := bincount bins (map (bin_index first last bins) xs) |}
  end.



(** The argument of a [histplot] call: a column as it is, or under
    [np.log1p], which has no rational value. *)
Inductive series : Type :=
| Raw (vs : list (option Q))
| Log1p (vs : list (option Q)).

(** ** The correlation matrix (line 190) *)

(** An entry of [corr()]: NaN, or the number [c / sqrt d] with [d > 0]. *)
Inductive fcorr : Type :=
| CorrNaN
| CorrVal (c d : Q).

(** The rows that [corr] reads for a pair of columns: it walks down the
    two columns together and keeps a row when neither cell is missing. *)
Fixpoint pairwise (xs ys : list (option Q)) : list (Q * Q) :=
  match xs, ys with
  | Some x :: xs', Some y :: ys' => (x, y) :: pairwise xs' ys'
  | _ :: xs', _ :: ys' => pairwise xs' ys'
  | _, _ => []
  end.


(** Pearson's coefficient of the given rows, as [DataFrame.corr] computes
    it ([method='pearson'], [min_periods=1]): NaN below one row and NaN
    when the divisor [sqrt (ssq_x * ssq_y)] is zero. *)
Definition pearson (ps : list (Q * Q)) : fcorr :=
  if (length ps <? 1)%nat then CorrNaN
  else
    let d := ssq_dev (map fst ps) * ssq_dev (map snd ps) in
    if Qeq_bool d 0 then CorrNaN else CorrVal (co_dev ps) d.

Definition corr_entry (xs ys : list (option Q)) : fcorr :=
  pearson (pairwise xs ys).

Definition NumFrame : Type := list (string * list (option Q)).

(** [numerical_df.corr()]: one row per column, one entry per column. *)
Definition corr (ndf : NumFrame) : list (string * list (string * fcorr)) :=
  map (fun r => (fst r, map (fun c => (fst c, corr_entry (snd r) (snd c))) ndf)) ndf.

(** [m[i][j]] *)
Definition entry (m : list (string * list (string * fcorr))) (i j : nat) : fcorr :=
  nth j (map snd (snd (nth i m (EmptyString, [])))) CorrNaN.

(** The cells of the i-th column of a numeric frame. *)
Definition column_cells (ndf : NumFrame) (i : nat) : list (option Q) :=
  snd (nth i ndf (EmptyString, [])).

(** The value of an entry as a real number. *)
Definition corr_R (v : fcorr) : option R :=
  match v with
  | CorrNaN => None
  | CorrVal c d => Some (Q2R c / sqrt (Q2R d))%R
  end.

(** [t <= |v|] for a threshold [t >= 0]; false for NaN. *)
Definition corr_abs_geb (t : Q) (v : fcorr) : bool :=
  match v with
  | CorrNaN => false
  | CorrVal c d => Qle_bool (t * t * d) (c * c)
  end.

(** [0 < v]; false for NaN. *)
Definition corr_posb (v : fcorr) : bool :=
  match v with
  | CorrNaN => false
  | CorrVal c d => Qltb 0 c
  end.

(** A correlation that reaches the threshold 0.7 at which the design
    calls the financial correlation high. *)
Definition strongly_positive (v : fcorr) : bool :=
  corr_posb v && corr_abs_geb (7 # 10) v.



(** ** What a run prints and draws *)

(** One event per [print] and per drawing call, with the value printed or
    the data drawn; [Title] and [Show] are [plt.title] and [plt.show].  The
    calls that only size or place a figure ([plt.figure], [plt.subplot],
    [plt.tight_layout], [plt.xlabel], [plt.ylabel]) leave no event. *)
Inductive event : Type :=
| Print (s : string)
| PrintFrame (df : DataFrame)
| PrintShape (s : nat * nat)
| PrintInfo (t : list (string * nat * dtype))
| PrintMissing (t : list missing_row)
| PrintDescribe (t : list (string * describe_row))
| PrintCounts (t : list (cell * nat))
| Boxplot (boxes : list (string * option box_stats))
| Histplot (x : series) (bins : nat)
| Countplot (order : list cell) (x : column)
| Heatmap (m : list (string * list (string * fcorr)))
| Scatterplot (x y hue : list (option Q))
| Title (s : string)
| Show.

(** A computation: the events so far and either the exception that
    stopped it or its value. *)
Definition M (A : Type) : Type := list event * (exn + A).

Definition ret {A : Type} (a : A) : M A := ([], inr a).

Definition bind {A B : Type} (m : M A) (k : A -> M B) : M B :=
  match m with
  | (t, inl e) => (t, inl e)
  | (t, inr a) => ((t ++ fst (k a))%list, snd (k a))
  end.

Definition emit (e : event) : M unit := ([e], inr tt).

(** An expression that may raise. *)
Definition lift {A : Type} (r : exn + A) : M A := ([], r).

Definition print (s : string) : M unit := emit (Print s).

Notation "x <- m ;; k" := (bind m (fun x => k))
  (at level 61, m at next level, right associativity).
Notation "m ;; k" := (bind m (fun _ => k))
  (at level 61, right associativity).

(** What a computation printed and drew, and how it ended. *)
Definition trace {A : Type} (m : M A) : list event := fst m.
Definition result {A : Type} (m : M A) : exn + A := snd m.

(** The run reached its last statement. *)
Definition completes {A : Type} (m : M A) : Prop :=
  exists a, result m = inr a.

(** The run was stopped by the exception [e]. *)
Definition raises {A : Type} (m : M A) (e : exn) : Prop :=
  result m = inl e.

(** No event of the run satisfies [P]. *)
Definition avoids {A : Type} (P : event -> Prop) (m : M A) : Prop :=
  forall e, In e (trace m) -> ~ P e.

(** No exception of the computation satisfies [P]. *)
Definition never_raises {A : Type} (P : exn -> Prop) (m : M A) : Prop :=
  forall e, raises m e -> ~ P e.

(** ** Column selection *)

(** [df[name]] *)
Definition getitem (name : string) (df : DataFrame) : exn + column :=
  match lookup name df with
  | Some c => inr c
  | None => inl (KeyError [name])
  end.

(** [df[names]]: the named columns in the order asked for, or a [KeyError]
    that lists the names that are no column. *)
Definition getitems (names : list string) (df : DataFrame) : exn + DataFrame :=
  match filter (fun n => negb (has_column n df)) names with
  | [] => inr (flat_map (fun n => match lookup n df with
                                  | Some c => [(n, c)]
                                  | None => []
                                  end) names)
  | missing => inl (KeyError missing)
  end.

(** The cells of a column as numbers.  The script uses its columns as
    numbers without a check; a column of another dtype stops this model
    with [TypeError] where the first number is needed.  pandas and seaborn
    are more lenient with such a column ([describe] leaves it out, a
    boolean column is read as 0 and 1), so a statement below that follows
    a run through lines 135-199 takes the four columns to be numeric, or
    holds wherever the run stops. *)
Definition numeric (name : string) (c : column) : exn + list (option Q) :=
  match c with
  | NumCol vs => inr vs
  | _ => inl (TypeError name)
  end.

Fixpoint numeric_frame (df : DataFrame) : exn + NumFrame :=
  match df with
  | [] => inr []
  | (n, c) :: rest =>
      match numeric n c with
      | inl e => inl e
      | inr vs =>
          match numeric_frame rest with
          | inl e => inl e
          | inr r => inr ((n, vs) :: r)
          end
      end
  end.

(** ** The script *)

Definition nl : string := String (ascii_of_nat 10) EmptyString.

(** ["="*50] *)
Definition rule : string := "==================================================".

Definition banner (s : string) : M unit :=
  print (nl ++ rule) ;; print s ;; print rule.

(** The data of lines 80-90. *)
Definition dummy : DataFrame :=
  [ ("title", ObjCol [Some "Avatar"; Some "Titanic"; Some "Avengers"; Some "Joker";
                      Some "Inception"]);
    ("release_date", ObjCol [Some "2009-12-18"; Some "1997-12-19"; Some "2012-05-04";
                             Some "2019-10-04"; Some "2010-07-16"]);
    ("budget", NumCol [Some 237000000; Some 200000000; Some 220000000; Some 55000000;
                       Some 160000000]);
    ("revenue", NumCol [Some 2787965087; Some 2257844554; Some 1518815515;
                        Some 1074219000; Some 825532764]);
    ("runtime", NumCol [Some 162; Some 194; Some 143; Some 122; Some 148]);
    ("vote_average", NumCol [Some (72 # 10); Some (75 # 10); Some (78 # 10);
                             Some (84 # 10); Some (88 # 10)]);
    ("genre", ObjCol [Some "Action"; Some "Drama"; Some "Action"; Some "Drama";
                      Some "Sci-Fi"]);
    ("director", ObjCol [Some "James Cameron"; Some "James Cameron"; Some "Joss Whedon";
                         Some "Todd Phillips"; Some "Christopher Nolan"]);
    ("is_english", BoolCol [true; true; true; true; true]) ].

(** The message of line 78. *)
Definition diagnostic : string :=
  "Dataset not found. Using a dummy DataFrame for demonstration.".

(** Lines 74-93: only [FileNotFoundError] is handled. *)
Definition load (f : csv_file) : M DataFrame :=
  df <- match read_csv f with
        | inr df => ret df
        | inl FileNotFoundError => print diagnostic ;; ret dummy
        | inl e => lift (inl e)
        end ;;
  print "Data Loading Complete." ;;
  ret df.

(** Lines 98-112. *)
Definition inspect (df : DataFrame) : M unit :=
  banner "STEP 2: INITIAL DATA INSPECTION" ;;
  print "--- First 5 Rows ---" ;;
  emit (PrintFrame (head df)) ;;
  print (nl ++ "--- Dataset Shape (Rows, Columns) ---") ;;
  emit (PrintShape (shape df)) ;;
  print (nl ++ "--- Column Info and Data Types ---") ;;
  emit (PrintInfo (info df)).

(** Lines 117-141. *)
Definition quality (df : DataFrame) : M unit :=
  banner "STEP 3: DATA QUALITY ASSESSMENT" ;;
  print (nl ++ "--- 3.1 Missing Value Report ---") ;;
  emit (PrintMissing (missing_df df)) ;;
  print (nl ++ "--- 3.2 Numerical Feature Descriptive Statistics ---") ;;
  sel <- lift (getitems ["budget"; "revenue"; "runtime"; "vote_average"] df) ;;
  num <- lift (numeric_frame sel) ;;
  emit (PrintDescribe (map (fun nc => (fst nc, describe_series (snd nc))) num)) ;;
  sel <- lift (getitems ["budget"; "revenue"; "runtime"] df) ;;
  num <- lift (numeric_frame sel) ;;
  emit (Boxplot (map (fun nc => (fst nc, box_of (snd nc))) num)) ;;
  emit (Title "Box Plots for Budget, Revenue, and Runtime") ;;
  emit Show.

(** Lines 146-169. *)
Definition histograms (df : DataFrame) : M unit :=
  banner "STEP 4: UNIVARIATE ANALYSIS" ;;
  c <- lift (getitem "runtime" df) ;;
  runtime <- lift (numeric "runtime" c) ;;
  emit (Histplot (Raw runtime) 10) ;;
  emit (Title "Runtime Distribution") ;;
  c <- lift (getitem "vote_average" df) ;;
  vote_average <- lift (numeric "vote_average" c) ;;
  emit (Histplot (Raw vote_average) 10) ;;
  emit (Title "Vote Average Distribution") ;;
  c <- lift (getitem "budget" df) ;;
  budget <- lift (numeric "budget" c) ;;
  emit (Histplot (Log1p budget) 10) ;;
  emit (Title "Log-Transformed Budget Distribution") ;;
  emit Show.

(** Lines 172-179. *)
Definition genres (df : DataFrame) : M unit :=
  print (nl ++ "--- 4.2 Top 5 Movie Genres ---") ;;
  genre <- lift (getitem "genre" df) ;;
  emit (PrintCounts (firstn 5 (value_counts genre))) ;;
  genre <- lift (getitem "genre" df) ;;
  emit (Countplot (map fst (value_counts genre)) genre) ;;
  emit (Title "Movie Count by Primary Genre") ;;
  emit Show.

Definition univariate (df : DataFrame) : M unit :=
  histograms df ;;
  genres df.

(** Lines 184-203.  The scatter plot names its three columns; they are
    columns of [df], or line 189 would have raised. *)
Definition bivariate (df : DataFrame) : M unit :=
  banner "STEP 5: BIVARIATE AND MULTIVARIATE ANALYSIS" ;;
  sel <- lift (getitems ["budget"; "revenue"; "runtime"; "vote_average"] df) ;;
  numerical_df <- lift (numeric_frame sel) ;;
  let correlation_matrix := corr numerical_df in
  emit (Heatmap correlation_matrix) ;;
  emit (Title "Correlation Matrix of Numerical Features") ;;
  emit Show ;;
  c <- lift (getitem "budget" df) ;;
  x <- lift (numeric "budget" c) ;;
  c <- lift (getitem "revenue" df) ;;
  y <- lift (numeric "revenue" c) ;;
  c <- lift (getitem "vote_average" df) ;;
  hue <- lift (numeric "vote_average" c) ;;
  emit (Scatterplot x y hue) ;;
  emit (Title "Budget vs. Revenue (Colored by Vote Average)") ;;
  emit Show.

Definition insight1 : string :=
  "1. High Correlation in Financials: Budget and Revenue show a strong positive correlation.".

(** Lines 208-216. *)
Definition insights : M unit :=
  banner "STEP 6: FINAL INSIGHTS (STATISTICAL STORYTELLING)" ;;
  print insight1 ;;
  print "2. Distribution Skew: Financial features are highly right-skewed due to blockbuster outliers." ;;
  print "3. Key Genre Popularity: 'Action' and 'Drama' are the most dominant genres in the sample." ;;
  print "4. Data Quality: Core numerical columns are complete; descriptive columns may have high missing rates." ;;
  print "5. Runtime Profile: Most movies cluster around the 120-150 minute mark." ;;
  print rule.

(** The whole script, on what is on disk under the name
    'tmdb_movies.csv'. *)
Definition main (f : csv_file) : M unit :=
  df <- load f ;;
  inspect df ;;
  quality df ;;
  univariate df ;;
  bivariate df ;;
  insights.

(** The statements of a run on a frame that is already loaded. *)
Definition analyse (df : DataFrame) : M unit :=
  inspect df ;;
  quality df ;;
  univariate df ;;
  bivariate df ;;
  insights.

(** ** Observations on a run *)

(** The event of line 211. *)
Definition is_insight1 (e : event) : Prop := e = Print insight1.

(** The exception of an absent file. *)
Definition is_file_not_found (e : exn) : Prop := e = FileNotFoundError.

Definition is_histplot (e : event) : bool :=
  match e with Histplot _ _ => true | _ => false end.



(** The events of the statements from line 173 on: the genre counts and
    their plot, the heat map and the scatter plot with their titles, the
    banners of steps 5 and 6 and the sentence of insight 1. *)
Definition from_line_173 (e : event) : bool :=
  match e with
  | PrintCounts _ | Countplot _ _ | Heatmap _ | Scatterplot _ _ _ => true
  | Title s =>
      existsb (String.eqb s)
        [ "Movie Count by Primary Genre";
          "Correlation Matrix of Numerical Features";
          "Budget vs. Revenue (Colored by Vote Average)" ]
  | Print s =>
      existsb (String.eqb s)
        [ "STEP 5: BIVARIATE AND MULTIVARIATE ANALYSIS";
          "STEP 6: FINAL INSIGHTS (STATISTICAL STORYTELLING)";
          insight1 ]
  | _ => false
  end.

Section Drawn.

(** [np.log1p] on the floats greater than -1. *)
Variable log1p : Q -> Q.

(** The cells that a [histplot] call bins: missing cells are dropped,
    and so are the cells at or below -1 under [np.log1p], which have no
    finite logarithm. *)
Definition binned (x : series) : list Q :=
  match x with
  | Raw vs => present vs
  | Log1p vs => map log1p (filter (fun v => Qltb (-1) v) (present vs))
  end.

(** The bars that an event draws. *)
Definition bars (e : event) : option histogram :=
  match e with
  | Histplot x bins => np_histogram bins (binned x)
  | _ => None
  end.

End Drawn.

(** The matrix that the run hands to the heat map. *)
Fixpoint heatmap_of (t : list event) : option (list (string * list (string * fcorr))) :=
  match t with
  | [] => None
  | Heatmap m :: _ => Some m
  | _ :: rest => heatmap_of rest
  end.

(** The first value stored under a name. *)
Fixpoint assoc {A : Type} (name : string) (l : list (string * A)) : option A :=
  match l with
  | [] => None
  | (n, a) :: rest => if String.eqb n name then Some a else assoc name rest
  end.

(** The entry of the run's correlation matrix for two columns; NaN when
    the run has no such entry. *)
Definition run_corr (f : csv_file) (row col : string) : fcorr :=
  match heatmap_of (trace (main f)) with
  | Some m =>
      match assoc row m with
      | Some r => match assoc col r with Some v => v | None => CorrNaN end
      | None => CorrNaN
      end
  | None => CorrNaN
  end.

(** The columns that lines 135 and 189 select. *)
Definition expected_numeric : list string :=
  ["budget"; "revenue"; "runtime"; "vote_average"].

(** The names among [names] that are no column of [df]. *)
Definition absent (df : DataFrame) (names : list string) : list string :=
  filter (fun n => negb (has_column n df)) names.

(** ** Tables used as examples *)

(** A table whose budget and revenue are uncorrelated. *)
Definition uncorrelated : DataFrame :=
  [ ("budget", NumCol [Some 1; Some 2; Some 3]);
    ("revenue", NumCol [Some 3; Some 0; Some 3]);
    ("runtime", NumCol [Some 100; Some 110; Some 120]);
    ("vote_average", NumCol [Some 5; Some 6; Some 7]);
    ("genre", ObjCol [Some "A"; Some "B"; Some "A"]) ].

(** A table without a budget column. *)
Definition no_budget : DataFrame :=
  [ ("revenue", NumCol [Some 3; Some 0; Some 3]);
    ("runtime", NumCol [Some 100; Some 110; Some 120]);
    ("vote_average", NumCol [Some 5; Some 6; Some 7]);
    ("genre", ObjCol [Some "A"; Some "B"; Some "A"]) ].

(** A table without a genre column. *)
Definition no_genre : DataFrame :=
  [ ("budget", NumCol [Some 1; Some 2; Some 3]);
    ("revenue", NumCol [Some 3; Some 0; Some 3]);
    ("runtime", NumCol [Some 100; Some 110; Some 120]);
    ("vote_average", NumCol [Some 5; Some 6; Some 7]) ].


(** A file with a header line and no record. *)
Definition header_only : DataFrame :=
  [ ("title", ObjCol []); ("budget", ObjCol []) ].

(** The runtime column of the built-in table. *)
Definition sample_runtime : list (option Q) :=
  [Some 162; Some 194; Some 143; Some 122; Some 148].

(** The genre counts of the built-in table. *)
Definition sample_genres : list (cell * nat) :=
  [(CStr "Action", 2%nat); (CStr "Drama", 2%nat); (CStr "Sci-Fi", 1%nat)].

(** ** The student portal (lines 1-54)

    The Flask application answers requests one at a time; each route reads
    the request, the session of the client and the database, and returns a
    response.  A route is embedded as a function from the state (the
    database and the session of one client) and the request to the
    response and the new state.  The tables and what MySQL answers are not
    in the file: the three statements that the routes execute are
    parameters, and they are taken to succeed; [DB] stands for the
    contents of the database, not for the connection.  Requests use the
    methods GET and POST, and a row of [Users] is taken to be a value that
    the session can store. *)

Module Portal.

Inductive method : Type := GET | POST.

Record request : Type := {
  path : string;
  meth : method;
  form : list (string * string)
}.

(** [request.form[key]]: the first value posted under the key. *)
Fixpoint field (key : string) (f : list (string * string)) : option string :=
  match f with
  | [] => None
  | (k, v) :: rest => if String.eqb k key then Some v else field key rest
  end.

(** The six values of line 47, in the order of the statement. *)
Record student_form : Type := {
  s_name : string;
  s_dob : string;
  s_email : string;
  s_phone : string;
  s_address : string;
  s_course : string
}.

(** The fields that [add_student] reads (lines 41-46); [None] when one of
    them was not posted. *)
Definition read_student (f : list (string * string)) : option student_form :=
  match field "name" f, field "dob" f, field "email" f,
        field "phone" f, field "address" f, field "course" f with
  | Some n, Some d, Some e, Some p, Some a, Some c =>
      Some {| s_name := n; s_dob := d; s_email := e;
              s_phone := p; s_address := a; s_course := c |}
  | _, _, _, _, _, _ => None
  end.

Section App.

(** A row of [Users] and a row of [Student], as the cursor returns them,
    and the database. *)
Variables user_row student_row DB : Type.

(** Lines 19-20: the first row of [Users] with the given name and
    password, if there is one. *)
Variable select_user : DB -> string -> string -> option user_row.

(** Lines 34-35: all rows of [Student]. *)
Variable select_students : DB -> list student_row.

(** Lines 47-49: the database after the insertion is committed. *)
Variable insert_student : DB -> student_form -> DB.

Record state : Type := {
  db : DB;
  session : option user_row
}.

(** A redirect, a rendered template with what it is given, or the answer
    of the framework to a request that no route takes (404), that uses a
    method the route does not list (405) or that lacks a form field the
    route reads (400). *)
Inductive response : Type :=
| Redirect (location : string)
| LoginPage
| DashboardPage (user : user_row)
| StudentsPage (students : list student_row)
| AddStudentPage
| BadRequest
| NotFound
| MethodNotAllowed.

(** Lines 10-12. *)
Definition home (st : state) : response * state := (Redirect "/login", st).

(** Lines 14-24. *)
Definition login (st : state) (rq : request) : response * state :=
  match meth rq with
  | POST =>
      match field "username" (form rq) with
      | None => (BadRequest, st)
      | Some uname =>
          match field "password" (form rq) with
          | None => (BadRequest, st)
          | Some pwd =>
              match select_user (db st) uname pwd with
              | Some user =>
                  (Redirect "/dashboard", {| db := db st; session := Some user |})
              | None => (LoginPage, st)
              end
          end
      end
  | GET => (LoginPage, st)
  end.

(** Lines 26-30. *)
Definition dashboard (st : state) : response * state :=
  match session st with
  | None => (Redirect "/login", st)
  | Some user => (DashboardPage user, st)
  end.

(** Lines 32-36. *)
Definition students (st : state) : response * state :=
  (StudentsPage (select_students (db st)), st).

(** Lines 38-51. *)
Definition add_student (st : state) (rq : request) : response * state :=
  match meth rq with
  | POST =>
      match read_student (form rq) with
      | None => (BadRequest, st)
      | Some s =>
          (Redirect "/students",
           {| db := insert_student (db st) s; session := session st |})
      end
  | GET => (AddStudentPage, st)
  end.

(** The routing table of the decorators: a route without [methods] takes
    GET only. *)
Definition handle (st : state) (rq : request) : response * state :=
  if String.eqb (path rq) "/" then
    match meth rq with GET => home st | POST => (MethodNotAllowed, st) end
  else if String.eqb (path rq) "/login" then login st rq
  else if String.eqb (path rq) "/dashboard" then
    match meth rq with GET => dashboard st | POST => (MethodNotAllowed, st) end
  else if String.eqb (path rq) "/students" then
    match meth rq with GET => students st | POST => (MethodNotAllowed, st) end
  else if String.eqb (path rq) "/add_student" then add_student st rq
  else (NotFound, st).

(** The state after a sequence of requests. *)
Fixpoint run (rqs : list request) (st : state) : state :=
  match rqs with
  | [] => st
  | rq :: rest => run rest (snd (handle st rq))
  end.

(** The request is a login that the database accepts with the row [u]. *)
Definition logs_in (st : state) (rq : request) (u : user_row) : Prop :=
  path rq = "/login" /\ meth rq = POST /\
  exists uname pwd,
    field "username" (form rq) = Some uname /\
    field "password" (form rq) = Some pwd /\
    select_user (db st) uname pwd = Some u.

(** The request is a complete submission of the student form. *)
Definition submits (rq : request) (s : student_form) : Prop :=
  path rq = "/add_student" /\ meth rq = POST /\ read_student (form rq) = Some s.

End App.

Arguments Redirect {user_row student_row}.
Arguments LoginPage {user_row student_row}.
Arguments DashboardPage {user_row student_row}.
Arguments StudentsPage {user_row student_row}.
Arguments AddStudentPage {user_row student_row}.
Arguments BadRequest {user_row student_row}.
Arguments NotFound {user_row student_row}.
Arguments MethodNotAllowed {user_row student_row}.
Arguments Build_state {user_row DB}.
Arguments db {user_row DB}.
Arguments session {user_row DB}.
Arguments home {user_row student_row DB}.
Arguments login {user_row student_row DB}.
Arguments dashboard {user_row student_row DB}.
Arguments students {user_row student_row DB}.
Arguments add_student {user_row student_row DB}.
Arguments handle {user_row student_row DB}.
Arguments run {user_row student_row DB}.
Arguments logs_in {user_row DB}.

(** A database for examples: the users as pairs of name and password, the
    students as the submitted values, in the order of insertion. *)
Definition demo_db : Type := list (string * string) * list student_form.

Definition demo_select_user (d : demo_db) (uname pwd : string) : option (string * string) :=
  find (fun r => String.eqb (fst r) uname && String.eqb (snd r) pwd) (fst d).

Definition demo_select_students (d : demo_db) : list student_form := snd d.

Definition demo_insert_student (d : demo_db) (s : student_form) : demo_db :=
  (fst d, (snd d ++ [s])%list).

Definition demo_handle := handle demo_select_user demo_select_students demo_insert_student.
Definition demo_run := run demo_select_user demo_select_students demo_insert_student.

(** One user, no student, nobody logged in. *)
Definition demo_start : state (string * string) demo_db :=
  {| db := ([("ann", "secret")], []); session := None |}.

Definition demo_login : request :=
  {| path := "/login"; meth := POST;
     form := [("username", "ann"); ("password", "secret")] |}.

Definition get (p : string) : request := {| path := p; meth := GET; form := [] |}.

End Portal.

(** * Properties *)

(** ** The run monad *)

(** The trace and the result of a sequence. *)
Lemma trace_bind {A B : Type} (m : M A) (k : A -> M B) :
  trace (bind m k) =
  (trace m ++ match result m with inr a => trace (k a) | inl _ => [] end)%list.
Proof.
  destruct m as [t [e | a]]; simpl; [now rewrite app_nil_r | reflexivity].
Qed.

Lemma result_bind {A B : Type} (m : M A) (k : A -> M B) :
  result (bind m k) =
  match result m with inr a => result (k a) | inl e => inl e end.
Proof. destruct m as [t [e | a]]; reflexivity. Qed.

Lemma completes_bind {A B : Type} (m : M A) (k : A -> M B) :
  completes (bind m k) <-> exists a, result m = inr a /\ completes (k a).
Proof.
  unfold completes. rewrite result_bind. destruct (result m) as [e | a].
  - split; [intros [b H]; discriminate | intros [a [H _]]; discriminate].
  - split.
    + intros H. exists a. split; [reflexivity | exact H].
    + intros [a' [H H']]. inversion H; subst a'. exact H'.
Qed.

Lemma completes_not_raises {A : Type} (m : M A) :
  ~ completes m <-> exists e, raises m e.
Proof.
  unfold completes, raises. destruct (result m) as [e | a].
  - split; [intros _; now exists e | intros _ [a H]; discriminate].
  - split; [intros H; exfalso; apply H; now exists a | intros [e H]; discriminate].
Qed.

Lemma in_trace_bind {A B : Type} (m : M A) (k : A -> M B) (e : event) :
  In e (trace (bind m k)) <->
  In e (trace m) \/ exists a, result m = inr a /\ In e (trace (k a)).
Proof.
  rewrite trace_bind, in_app_iff. destruct (result m) as [x | a].
  - split; [intros [H | []]; now left | intros [H | [a [H _]]]; [now left | discriminate]].
  - split.
    + intros [H | H]; [now left | right; now exists a].
    + intros [H | [a' [H H']]]; [now left | right; now inversion H; subst a'].
Qed.

Lemma filter_trace_bind {A B : Type} (p : event -> bool) (m : M A) (k : A -> M B) :
  filter p (trace (bind m k)) =
  (filter p (trace m) ++
   match result m with inr a => filter p (trace (k a)) | inl _ => [] end)%list.
Proof.
  rewrite trace_bind, filter_app. destruct (result m); reflexivity.
Qed.

Lemma avoids_bind {A B : Type} (P : event -> Prop) (m : M A) (k : A -> M B) :
  avoids P m -> (forall a, avoids P (k a)) -> avoids P (bind m k).
Proof.
  intros Hm Hk e. rewrite trace_bind, in_app_iff. intros [H | H].
  - now apply Hm.
  - destruct (result m) as [x | a]; [destruct H | now apply (Hk a)].
Qed.

Lemma avoids_ret {A : Type} (P : event -> Prop) (a : A) : avoids P (ret a).
Proof. intros e []. Qed.

Lemma avoids_lift {A : Type} (P : event -> Prop) (r : exn + A) : avoids P (lift r).
Proof. intros e []. Qed.

Lemma avoids_emit (P : event -> Prop) (e : event) : ~ P e -> avoids P (emit e).
Proof. intros H e' [<- | []]. exact H. Qed.

Lemma avoids_print (P : event -> Prop) (s : string) : ~ P (Print s) -> avoids P (print s).
Proof. apply avoids_emit. Qed.

Lemma avoids_banner (P : event -> Prop) (s : string) :
  ~ P (Print (nl ++ rule)) -> ~ P (Print s) -> ~ P (Print rule) -> avoids P (banner s).
Proof.
  intros H1 H2 H3. unfold banner.
  repeat (apply avoids_bind; [| intros _]); now apply avoids_print.
Qed.

Lemma filter_avoids {A : Type} (p : event -> bool) (m : M A) :
  avoids (fun e => p e = true) m -> filter p (trace m) = [].
Proof.
  unfold avoids. induction (trace m) as [| e t IH]; intros H; [reflexivity |].
  simpl. destruct (p e) eqn:E.
  - exfalso. apply (H e); [now left | exact E].
  - apply IH. intros e' He'. apply H. now right.
Qed.

(** Splits a stage into its statements and leaves one goal [~ P e] per
    event it can emit. *)
Ltac stage_events :=
  repeat first
    [ apply avoids_bind; [| intro ]
    | apply avoids_lift
    | apply avoids_ret
    | apply avoids_banner
    | apply avoids_print
    | apply avoids_emit ].

(** A run on a file that parses is the analysis of its table. *)
Lemma main_good df :
  main (GoodFile df) =
  (Print "Data Loading Complete." :: trace (analyse df), result (analyse df)).
Proof. reflexivity. Qed.

(** ** Runs on numeric columns *)

Lemma lookup_has_column df n c : lookup n df = Some c -> has_column n df = true.
Proof. unfold has_column. now intros ->. Qed.

Lemma quality_numeric df b r rt va :
  lookup "budget" df = Some (NumCol b) ->
  lookup "revenue" df = Some (NumCol r) ->
  lookup "runtime" df = Some (NumCol rt) ->
  lookup "vote_average" df = Some (NumCol va) ->
  result (quality df) = inr tt.
Proof.
  intros Hb Hr Hrt Hva. unfold quality, getitems.
  simpl filter. simpl flat_map.
  rewrite (lookup_has_column _ _ _ Hb), (lookup_has_column _ _ _ Hr),
    (lookup_has_column _ _ _ Hrt), (lookup_has_column _ _ _ Hva), Hb, Hr, Hrt, Hva.
  reflexivity.
Qed.

Lemma histograms_numeric df b rt va :
  lookup "budget" df = Some (NumCol b) ->
  lookup "runtime" df = Some (NumCol rt) ->
  lookup "vote_average" df = Some (NumCol va) ->
  result (histograms df) = inr tt /\
  filter is_histplot (trace (histograms df)) =
  [Histplot (Raw rt) 10; Histplot (Raw va) 10; Histplot (Log1p b) 10].
Proof.
  intros Hb Hrt Hva. unfold histograms, getitem. rewrite Hb, Hrt, Hva.
  split; reflexivity.
Qed.

(** ** The insight block *)

Ltac other_event := unfold is_insight1, insight1; intro; discriminate.

Lemma load_no_insight1 f : avoids is_insight1 (load f).
Proof.
  unfold load. destruct f as [| e | df]; simpl read_csv; cbv iota.
  - stage_events; other_event.
  - destruct e; stage_events; other_event.
  - stage_events; other_event.
Qed.

Lemma inspect_no_insight1 df : avoids is_insight1 (inspect df).
Proof. unfold inspect. stage_events; other_event. Qed.

Lemma quality_no_insight1 df : avoids is_insight1 (quality df).
Proof. unfold quality. stage_events; other_event. Qed.

Lemma univariate_no_insight1 df : avoids is_insight1 (univariate df).
Proof. unfold univariate, histograms, genres. stage_events; other_event. Qed.

Lemma bivariate_no_insight1 df : avoids is_insight1 (bivariate df).
Proof. unfold bivariate. stage_events; other_event. Qed.

Lemma insights_run :
  completes insights /\ In (Print insight1) (trace insights).
Proof.
  split; [exists tt; reflexivity | simpl; tauto].
Qed.

Lemma not_printed {A : Type} (m : M A) :
  avoids is_insight1 m -> ~ In (Print insight1) (trace m).
Proof. intros H Hin. apply (H _ Hin). reflexivity. Qed.

(** C1, as stated, fails: on a table whose budget and revenue have
    correlation 0 the sentence of insight 1 is printed all the same. *)
Lemma insight1_printed_without_correlation :
  ~ (In (Print insight1) (trace (main (GoodFile uncorrelated))) <->
     corr_abs_geb (7 # 10) (run_corr (GoodFile uncorrelated) "budget" "revenue") = true).
Proof.
  intros [H _].
  assert (E : corr_abs_geb (7 # 10) (run_corr (GoodFile uncorrelated) "budget" "revenue")
              = false) by reflexivity.
  rewrite H in E; [discriminate |].
  lazy. tauto.
Qed.

(** C1, amended: the sentence of insight 1 is printed exactly by the runs
    that reach the last block of the script, whatever the correlation of
    budget and revenue is; no threshold is consulted. *)
Theorem insight1_iff_completes (f : csv_file) :
  In (Print insight1) (trace (main f)) <-> completes (main f).
Proof.
  unfold main. split.
  - intros H.
    apply in_trace_bind in H. destruct H as [H | [df [Hl H]]];
      [now apply not_printed in H; [| apply load_no_insight1] |].
    apply in_trace_bind in H. destruct H as [H | [u2 [H2 H]]];
      [now apply not_printed in H; [| apply inspect_no_insight1] |].
    apply in_trace_bind in H. destruct H as [H | [u3 [H3 H]]];
      [now apply not_printed in H; [| apply quality_no_insight1] |].
    apply in_trace_bind in H. destruct H as [H | [u4 [H4 H]]];
      [now apply not_printed in H; [| apply univariate_no_insight1] |].
    apply in_trace_bind in H. destruct H as [H | [u5 [H5 H]]];
      [now apply not_printed in H; [| apply bivariate_no_insight1] |].
    apply completes_bind; exists df; split; [exact Hl |].
    apply completes_bind; exists u2; split; [exact H2 |].
    apply completes_bind; exists u3; split; [exact H3 |].
    apply completes_bind; exists u4; split; [exact H4 |].
    apply completes_bind; exists u5; split; [exact H5 |].
    apply insights_run.
  - intros H.
    apply completes_bind in H. destruct H as [df [Hl H]].
    apply completes_bind in H. destruct H as [u2 [H2 H]].
    apply completes_bind in H. destruct H as [u3 [H3 H]].
    apply completes_bind in H. destruct H as [u4 [H4 H]].
    apply completes_bind in H. destruct H as [u5 [H5 H]].
    apply in_trace_bind; right; exists df; split; [exact Hl |].
    apply in_trace_bind; right; exists u2; split; [exact H2 |].
    apply in_trace_bind; right; exists u3; split; [exact H3 |].
    apply in_trace_bind; right; exists u4; split; [exact H4 |].
    apply in_trace_bind; right; exists u5; split; [exact H5 |].
    apply insights_run.
Qed.

(** ** The loader *)

(** C2, as stated, fails: a file that is there but cannot be parsed stops
    the run; nothing is printed and the built-in table is not used. *)
Lemma unparsable_file_stops_run :
  ~ (unparsable ParserError -> completes (main (BadFile ParserError))).
Proof.
  intros H. destruct H as [u H]; [right; left; reflexivity | discriminate H].
Qed.

(** C2, amended: when the file is absent the loader prints a diagnostic
    and goes on with the built-in table of 5 rows and 9 columns, and the
    run on it reaches its last statement; when the file cannot be parsed
    the exception of [read_csv] leaves the script before anything is
    printed. *)
Theorem load_falls_back_on_absent_file :
  (trace (main NoFile)
     = Print diagnostic :: Print "Data Loading Complete." :: trace (analyse dummy)
   /\ completes (main NoFile)
   /\ shape dummy = (5%nat, 9%nat))
  /\ forall e, unparsable e -> main (BadFile e) = ([], inl e).
Proof.
  split.
  - split; [reflexivity |].
    split; [exists tt; reflexivity | reflexivity].
  - intros e [-> | [-> | ->]]; reflexivity.
Qed.

(** The theorem at a file without content. *)
Lemma load_falls_back_on_absent_file_witness :
  main (BadFile EmptyDataError) = ([], inl EmptyDataError).
Proof.
  apply (proj2 load_falls_back_on_absent_file). left. reflexivity.
Defined.

(** ** Absent columns *)

Lemma getitems_absent df names :
  absent df names <> [] -> getitems names df = inl (KeyError (absent df names)).
Proof.
  unfold getitems, absent. destruct (filter _ names); [congruence | reflexivity].
Qed.

Lemma quality_absent df :
  absent df expected_numeric <> [] ->
  quality df =
  ([ Print (nl ++ rule); Print "STEP 3: DATA QUALITY ASSESSMENT"; Print rule;
     Print (nl ++ "--- 3.1 Missing Value Report ---");
     PrintMissing (missing_df df);
     Print (nl ++ "--- 3.2 Numerical Feature Descriptive Statistics ---") ],
   inl (KeyError (absent df expected_numeric))).
Proof.
  intros H. unfold quality.
  change ["budget"; "revenue"; "runtime"; "vote_average"] with expected_numeric.
  rewrite (getitems_absent _ _ H). reflexivity.
Qed.

(** C3, as stated, fails: on a table without a budget column the run does
    not complete. *)
Lemma absent_budget_stops_run :
  ~ (absent no_budget (expected_numeric ++ ["genre"]) <> [] ->
     completes (main (GoodFile no_budget))).
Proof.
  intros H. destruct H as [u H]; [vm_compute; discriminate | vm_compute in H; discriminate].
Qed.

Ltac not_from_line_173 := simpl; intro; discriminate.

Lemma inspect_before_173 df : filter from_line_173 (trace (inspect df)) = [].
Proof. apply filter_avoids. unfold inspect. stage_events; not_from_line_173. Qed.

Lemma quality_before_173 df : filter from_line_173 (trace (quality df)) = [].
Proof. apply filter_avoids. unfold quality. stage_events; not_from_line_173. Qed.

Lemma histograms_before_173 df : filter from_line_173 (trace (histograms df)) = [].
Proof. apply filter_avoids. unfold histograms. stage_events; not_from_line_173. Qed.

(** Without a genre column line 173 raises right after the header of
    line 172. *)
Lemma genres_absent_stops df :
  has_column "genre" df = false ->
  genres df = ([Print (nl ++ "--- 4.2 Top 5 Movie Genres ---")], inl (KeyError ["genre"])).
Proof.
  intros H. unfold genres, getitem. unfold has_column in H.
  destruct (lookup "genre" df); [discriminate | reflexivity].
Qed.

Lemma absent_genre df :
  absent df expected_numeric = [] ->
  absent df (expected_numeric ++ ["genre"]) <> [] ->
  has_column "genre" df = false.
Proof.
  unfold absent. intros Hn H. rewrite filter_app, Hn in H. simpl in H.
  destruct (has_column "genre" df); [now elim H | reflexivity].
Qed.

(** C3, amended: a loaded table that lacks an expected column never runs
    to the end: the run stops with an exception, and nothing of what the
    statements from line 173 on print or draw appears.  When budget,
    revenue, runtime or vote_average is absent, the selection of line 135
    raises a [KeyError] that names the absent ones, right after the
    missing-value report: no descriptive statistic, plot or insight
    follows.  When only genre is absent and the four columns are numeric,
    the quality stage and the histograms run in full, and [df['genre']]
    of line 173 raises [KeyError] for genre right after the header of
    line 172. *)
Theorem absent_column_stops_run (df : DataFrame) :
  absent df (expected_numeric ++ ["genre"]) <> [] ->
  (exists e, raises (main (GoodFile df)) e) /\
  filter from_line_173 (trace (main (GoodFile df))) = [] /\
  (absent df expected_numeric <> [] ->
   main (GoodFile df) =
   ((Print "Data Loading Complete." :: trace (inspect df)) ++
    [ Print (nl ++ rule); Print "STEP 3: DATA QUALITY ASSESSMENT"; Print rule;
      Print (nl ++ "--- 3.1 Missing Value Report ---");
      PrintMissing (missing_df df);
      Print (nl ++ "--- 3.2 Numerical Feature Descriptive Statistics ---") ],
    inl (KeyError (absent df expected_numeric)))%list) /\
  (forall b r rt va,
     lookup "budget" df = Some (NumCol b) ->
     lookup "revenue" df = Some (NumCol r) ->
     lookup "runtime" df = Some (NumCol rt) ->
     lookup "vote_average" df = Some (NumCol va) ->
     completes (quality df) /\ completes (histograms df) /\
     main (GoodFile df) =
     ((Print "Data Loading Complete." :: trace (inspect df)) ++ trace (quality df) ++
      trace (histograms df) ++ [Print (nl ++ "--- 4.2 Top 5 Movie Genres ---")],
      inl (KeyError ["genre"]))%list).
Proof.
  intros H.
  assert (E : absent df expected_numeric <> [] ->
              main (GoodFile df) =
              ((Print "Data Loading Complete." :: trace (inspect df)) ++
               [ Print (nl ++ rule); Print "STEP 3: DATA QUALITY ASSESSMENT"; Print rule;
                 Print (nl ++ "--- 3.1 Missing Value Report ---");
                 PrintMissing (missing_df df);
                 Print (nl ++ "--- 3.2 Numerical Feature Descriptive Statistics ---") ],
               inl (KeyError (absent df expected_numeric)))%list).
  { intros Hn. rewrite main_good. unfold analyse.
    rewrite (quality_absent _ Hn). reflexivity. }
  assert (G : absent df expected_numeric = [] ->
              genres df = ([Print (nl ++ "--- 4.2 Top 5 Movie Genres ---")],
                           inl (KeyError ["genre"]))).
  { intros Hn. apply genres_absent_stops, absent_genre; assumption. }
  split; [| split; [| split; [exact E |]]].
  - apply completes_not_raises.
    destruct (absent df expected_numeric) as [| n ns] eqn:Hn.
    + intros C. unfold main in C.
      apply completes_bind in C. destruct C as [df' [Hl C]].
      inversion Hl; subst df'.
      apply completes_bind in C. destruct C as [? [_ C]].
      apply completes_bind in C. destruct C as [? [_ C]].
      apply completes_bind in C. destruct C as [? [C _]].
      unfold univariate in C. rewrite result_bind, (G eq_refl) in C.
      destruct (result (histograms df)); discriminate.
    + intros [u C]. rewrite E in C; [discriminate | discriminate].
  - destruct (absent df expected_numeric) as [| n ns] eqn:Hn.
    + rewrite main_good. cbn [trace fst filter from_line_173 existsb String.eqb Ascii.eqb Bool.eqb orb].
      unfold analyse, univariate.
      rewrite filter_trace_bind, inspect_before_173.
      rewrite filter_trace_bind, quality_before_173.
      rewrite !filter_trace_bind, histograms_before_173, result_bind, (G eq_refl).
      destruct (result (inspect df)); [reflexivity |].
      destruct (result (quality df)); [reflexivity |].
      destruct (result (histograms df)); reflexivity.
    + rewrite E by discriminate. cbn [trace fst]. rewrite filter_app.
      change (Print "Data Loading Complete." :: trace (inspect df))
        with ([Print "Data Loading Complete."] ++ trace (inspect df))%list.
      rewrite filter_app, inspect_before_173. reflexivity.
  - intros b r rt va Hb Hr Hrt Hva.
    assert (Hn : absent df expected_numeric = []).
    { unfold absent, expected_numeric. simpl filter.
      now rewrite (lookup_has_column _ _ _ Hb), (lookup_has_column _ _ _ Hr),
        (lookup_has_column _ _ _ Hrt), (lookup_has_column _ _ _ Hva). }
    pose proof (quality_numeric _ _ _ _ _ Hb Hr Hrt Hva) as Q.
    destruct (histograms_numeric _ _ _ _ Hb Hrt Hva) as [Hh _].
    split; [now exists tt |]. split; [now exists tt |].
    rewrite main_good. unfold analyse, univariate. f_equal.
    + rewrite !trace_bind, !result_bind, Q, Hh, (G Hn). simpl result.
      change (result (inspect df)) with (@inr exn unit tt). cbv iota.
      simpl trace at 4. rewrite <- !app_assoc. reflexivity.
    + rewrite !result_bind, Q, Hh, (G Hn). reflexivity.
Qed.

(** The theorem at a table without a genre column. *)
Lemma absent_column_stops_run_witness :
  main (GoodFile no_genre) =
  ((Print "Data Loading Complete." :: trace (inspect no_genre)) ++ trace (quality no_genre) ++
   trace (histograms no_genre) ++ [Print (nl ++ "--- 4.2 Top 5 Movie Genres ---")],
   inl (KeyError ["genre"]))%list.
Proof.
  exact (proj2 (proj2
           (proj2 (proj2 (proj2 (absent_column_stops_run no_genre
                                   (fun H => @nil_cons string "genre" [] (eq_sym H)))))
              [Some 1; Some 2; Some 3] [Some 3; Some 0; Some 3]
              [Some 100; Some 110; Some 120] [Some 5; Some 6; Some 7]
              eq_refl eq_refl eq_refl eq_refl))).
Defined.

(** ** The run on the built-in table *)

(** C4, as stated, fails: on the built-in table the coefficient of budget
    and revenue is below 0.7. *)
Lemma fallback_correlation_below_threshold :
  ~ (In (PrintShape (5%nat, 9%nat)) (trace (main NoFile)) /\
     (exists r, In (PrintMissing r) (trace (main NoFile)) /\
                Forall (fun x => m_count x = 0%nat) r) /\
     In (PrintCounts sample_genres) (trace (main NoFile)) /\
     strongly_positive (run_corr NoFile "budget" "revenue") = true /\
     In (Print insight1) (trace (main NoFile))).
Proof.
  intros (_ & _ & _ & H & _). lazy in H. discriminate.
Qed.

(** C4, amended: the run on the built-in table prints the shape (5, 9), a
    missing-value report of nine rows with count 0, and the genre counts
    Action 2, Drama 2, Sci-Fi 1 in that order; the coefficient of budget
    and revenue is positive and lies between 0.67 and 0.68, below 0.7; the
    sentence of insight 1 is printed. *)
Theorem fallback_run_report :
  In (PrintShape (5%nat, 9%nat)) (trace (main NoFile)) /\
  (exists r, In (PrintMissing r) (trace (main NoFile)) /\
             length r = 9%nat /\ Forall (fun x => m_count x = 0%nat) r) /\
  In (PrintCounts sample_genres) (trace (main NoFile)) /\
  (corr_posb (run_corr NoFile "budget" "revenue") = true /\
   corr_abs_geb (67 # 100) (run_corr NoFile "budget" "revenue") = true /\
   corr_abs_geb (68 # 100) (run_corr NoFile "budget" "revenue") = false) /\
  In (Print insight1) (trace (main NoFile)).
Proof.
  split; [lazy; tauto |].
  split.
  - exists (missing_df dummy). split; [lazy; tauto |].
    split; [reflexivity | lazy; repeat constructor].
  - split; [lazy; tauto |].
    split; [repeat split; reflexivity | lazy; tauto].
Qed.

(** ** The histogram calls *)

Ltac no_histplot := simpl; intro; discriminate.

Lemma inspect_no_histplot df : filter is_histplot (trace (inspect df)) = [].
Proof. apply filter_avoids. unfold inspect. stage_events; no_histplot. Qed.

Lemma quality_no_histplot df : filter is_histplot (trace (quality df)) = [].
Proof. apply filter_avoids. unfold quality. stage_events; no_histplot. Qed.

Lemma genres_no_histplot df : filter is_histplot (trace (genres df)) = [].
Proof. apply filter_avoids. unfold genres. stage_events; no_histplot. Qed.

Lemma bivariate_no_histplot df : filter is_histplot (trace (bivariate df)) = [].
Proof. apply filter_avoids. unfold bivariate. stage_events; no_histplot. Qed.

Lemma insights_no_histplot : filter is_histplot (trace insights) = [].
Proof. reflexivity. Qed.

(** C10: on every loaded table whose four numeric columns are there, the
    run calls [histplot] three times: on the runtime column as it is, on
    the vote_average column as it is, and on the budget column under
    [np.log1p]; so the third histogram bins the logarithms [log1p v] of the
    budget cells, not the cells. *)
Theorem budget_histogram_is_log_transformed
    (log1p : Q -> Q) (df : DataFrame) (b r rt va : list (option Q)) :
  lookup "budget" df = Some (NumCol b) ->
  lookup "revenue" df = Some (NumCol r) ->
  lookup "runtime" df = Some (NumCol rt) ->
  lookup "vote_average" df = Some (NumCol va) ->
  filter is_histplot (trace (main (GoodFile df))) =
    [Histplot (Raw rt) 10; Histplot (Raw va) 10; Histplot (Log1p b) 10] /\
  map (bars log1p) (filter is_histplot (trace (main (GoodFile df)))) =
    [ np_histogram 10 (present rt);
      np_histogram 10 (present va);
      np_histogram 10 (map log1p (filter (fun v => Qltb (-1) v) (present b))) ].
Proof.
  intros Hb Hr Hrt Hva.
  assert (E : filter is_histplot (trace (main (GoodFile df))) =
              [Histplot (Raw rt) 10; Histplot (Raw va) 10; Histplot (Log1p b) 10]).
  { replace (trace (main (GoodFile df)))
      with (Print "Data Loading Complete." :: trace (analyse df)) by reflexivity.
    cbn [filter is_histplot]. unfold analyse, univariate.
    rewrite filter_trace_bind, inspect_no_histplot.
    change (result (inspect df)) with (@inr exn unit tt). cbv iota.
    rewrite filter_trace_bind, quality_no_histplot,
      (quality_numeric _ _ _ _ _ Hb Hr Hrt Hva).
    destruct (histograms_numeric _ _ _ _ Hb Hrt Hva) as [Hh Ht].
    rewrite !filter_trace_bind, result_bind, Ht, Hh, genres_no_histplot,
      bivariate_no_histplot, insights_no_histplot.
    destruct (result (genres df)); [reflexivity |].
    destruct (result (bivariate df)); reflexivity. }
  split; [exact E | rewrite E; reflexivity].
Qed.

(** The theorem at a table of three rows. *)
Lemma budget_histogram_is_log_transformed_witness :
  filter is_histplot (trace (main (GoodFile uncorrelated))) =
    [ Histplot (Raw [Some 100; Some 110; Some 120]) 10;
      Histplot (Raw [Some 5; Some 6; Some 7]) 10;
      Histplot (Log1p [Some 1; Some 2; Some 3]) 10 ].
Proof.
  apply (budget_histogram_is_log_transformed (fun v => v) uncorrelated
           [Some 1; Some 2; Some 3] [Some 3; Some 0; Some 3]); reflexivity.
Defined.

(** ** The missing-value report *)

Lemma insert_desc_perm {A : Type} (key : A -> nat) (x : A) (l : list A) :
  Permutation (insert_desc key x l) (x :: l).
Proof.
  induction l as [| y r IH]; simpl; [reflexivity |].
  destruct (key y <=? key x)%nat; [reflexivity |].
  rewrite IH. apply perm_swap.
Qed.

Lemma sort_desc_perm {A : Type} (key : A -> nat) (l : list A) :
  Permutation (sort_desc key l) l.
Proof.
  induction l as [| x r IH]; simpl; [reflexivity |].
  rewrite insert_desc_perm. now constructor.
Qed.

Lemma insert_desc_sorted {A : Type} (key : A -> nat) (x : A) (l : list A) :
  descending key l -> descending key (insert_desc key x l).
Proof.
  unfold descending. induction 1 as [| y r Hr IH Hy]; simpl.
  - repeat constructor.
  - destruct (key y <=? key x)%nat eqn:E.
    + apply Nat.leb_le in E. constructor; [now constructor |].
      constructor; [exact E |].
      rewrite Forall_forall in *. intros z Hz. specialize (Hy z Hz). lia.
    + apply Nat.leb_gt in E. constructor; [exact IH |].
      rewrite Forall_forall in *. intros z Hz.
      apply (Permutation_in _ (insert_desc_perm key x r)) in Hz.
      destruct Hz as [<- | Hz]; [lia | now apply Hy].
Qed.

Lemma sort_desc_sorted {A : Type} (key : A -> nat) (l : list A) :
  descending key (sort_desc key l).
Proof.
  induction l as [| x r IH]; simpl; [constructor | now apply insert_desc_sorted].
Qed.

Lemma missing_df_rows df :
  missing_df df = sort_desc m_count (map (report_row (len df)) df).
Proof.
  unfold missing_df, missing_percentage, missing_values. f_equal.
  generalize (len df) as n. intros n.
  induction df as [| [name c] r IH]; simpl; [reflexivity | now rewrite IH].
Qed.

Lemma count_none_le {A : Type} (vs : list (option A)) :
  (count_none vs <= length vs)%nat.
Proof. apply filter_length_le. Qed.

Lemma col_missing_le c : (col_missing c <= col_len c)%nat.
Proof. destruct c; simpl; [apply count_none_le | apply count_none_le | lia]. Qed.

Lemma Qnat_eq0 n : Qeq_bool (Qnat n) 0 = (n =? 0)%nat.
Proof.
  destruct n; [reflexivity |].
  reflexivity.
Qed.

(** C9, as stated, fails: for a table without rows the percentage is NaN,
    not 0. *)
Lemma empty_table_percentage_is_nan :
  ~ (forall row, In row (missing_df header_only) ->
     exists q, m_pct row = Fin q /\ q == 0).
Proof.
  intros H. destruct (H {| m_name := "title"; m_count := 0; m_pct := NaN |})
    as [q [E _]]; [vm_compute; tauto | discriminate].
Qed.

(** C9, amended: the report has one row per column, with the column's
    missing count and that count divided by the number [n] of rows and
    multiplied by 100, and the rows are in descending order of the count;
    for a table without rows the division is 0/0 and the percentage is NaN:
    no exception, and not 0. *)
Theorem missing_report_rows (df : DataFrame) :
  well_formed df ->
  Permutation (missing_df df) (map (report_row (len df)) df) /\
  descending m_count (missing_df df) /\
  forall row, In row (missing_df df) ->
    ((0 < len df)%nat ->
     m_pct row = Fin (Qnat (m_count row) / Qnat (len df) * 100)) /\
    (len df = 0%nat -> m_count row = 0%nat /\ m_pct row = NaN).
Proof.
  intros [_ WF]. rewrite missing_df_rows.
  split; [apply sort_desc_perm |].
  split; [apply sort_desc_sorted |].
  intros row Hrow.
  apply (Permutation_in _ (sort_desc_perm _ _)) in Hrow.
  apply in_map_iff in Hrow. destruct Hrow as [nc [<- Hnc]].
  rewrite Forall_forall in WF. specialize (WF nc Hnc).
  pose proof (col_missing_le (snd nc)) as Hle.
  unfold report_row, true_divide; simpl. split.
  - intros Hn. rewrite Qnat_eq0.
    destruct (len df); [lia | reflexivity].
  - intros Hn. rewrite Hn in *.
    assert (E : col_missing (snd nc) = 0%nat) by lia.
    rewrite E. split; reflexivity.
Qed.

(** The theorem at the built-in table. *)
Lemma missing_report_rows_witness :
  descending m_count (missing_df dummy).
Proof.
  apply (missing_report_rows dummy). split.
  - repeat constructor; simpl; intuition discriminate.
  - repeat constructor.
Defined.

(** ** Sorting and quantiles *)

Lemma Qle_bool_trans : Transitive (fun x y => is_true (Qle_bool x y)).
Proof.
  intros x y z. unfold is_true. rewrite !Qle_bool_iff. apply Qle_trans.
Qed.

Lemma np_sort_sorted xs : StronglySorted Qle (np_sort xs).
Proof.
  unfold np_sort.
  pose proof (QSort.StronglySorted_sort xs Qle_bool_trans) as H.
  induction H as [| a l Hl IH Ha]; constructor; [exact IH |].
  rewrite Forall_forall in *. intros y Hy.
  apply Qle_bool_iff. exact (Ha y Hy).
Qed.

Lemma np_sort_perm xs : Permutation xs (np_sort xs).
Proof. apply QSort.Permuted_sort. Qed.

Lemma np_sort_length xs : length (np_sort xs) = length xs.
Proof. symmetry. apply Permutation_length, np_sort_perm. Qed.

Lemma sorted_nth_le (s : list Q) :
  StronglySorted Qle s ->
  forall i j, (i <= j)%nat -> (j < length s)%nat -> nth i s 0 <= nth j s 0.
Proof.
  induction 1 as [| a l Hl IH Ha]; intros i j Hij Hj; simpl in Hj; [lia |].
  destruct i as [| i], j as [| j]; simpl.
  - apply Qle_refl.
  - rewrite Forall_forall in Ha. apply Ha, nth_In. lia.
  - lia.
  - apply IH; lia.
Qed.

Lemma rank_bounds p n :
  0 <= p -> p <= 1 -> (0 < n)%nat -> (0 <= rank p n <= Z.of_nat n - 1)%Z.
Proof.
  intros H0 H1 Hn. unfold rank.
  assert (Hm : 0 <= inject_Z (Z.of_nat n - 1)).
  { change 0 with (inject_Z 0). rewrite <- Zle_Qle. lia. }
  split.
  - change 0%Z with (Qfloor 0). apply Qfloor_resp_le.
    apply Qmult_le_0_compat; assumption.
  - rewrite <- (Qfloor_Z (Z.of_nat n - 1)) at 2. apply Qfloor_resp_le.
    rewrite <- (Qmult_1_l (inject_Z (Z.of_nat n - 1))) at 2.
    apply Qmult_le_compat_r; assumption.
Qed.

Lemma frac_bounds h : 0 <= h - inject_Z (Qfloor h) /\ h - inject_Z (Qfloor h) < 1.
Proof.
  pose proof (Qfloor_le h). pose proof (Qlt_floor h) as H1.
  rewrite inject_Z_plus in H1. change (inject_Z 1) with 1 in H1.
  split; lra.
Qed.

(** A quantile lies between the two ranks it is interpolated from. *)
Lemma quantile_between p xs :
  0 <= p -> p <= 1 -> xs <> [] ->
  let s := np_sort xs in
  let n := Z.of_nat (length s) in
  let i := rank p (length s) in
  nth (Z.to_nat i) s 0 <= quantile p xs /\
  quantile p xs <= nth (Z.to_nat (Z.min (i + 1) (n - 1))) s 0.
Proof.
  intros H0 H1 Hx s n i. unfold quantile. cbv zeta.
  change (Qfloor (p * inject_Z (Z.of_nat (length (np_sort xs)) - 1))) with i.
  fold s. fold n.
  assert (Hn : (0 < length s)%nat).
  { unfold s. rewrite np_sort_length. destruct xs; [congruence | simpl; lia]. }
  pose proof (rank_bounds p (length s) H0 H1 Hn) as Hi. fold i in Hi.
  assert (Hle : nth (Z.to_nat i) s 0 <= nth (Z.to_nat (Z.min (i + 1) (n - 1))) s 0).
  { apply sorted_nth_le; [apply np_sort_sorted | unfold n; lia | unfold n; lia]. }
  destruct (frac_bounds (p * inject_Z (n - 1))) as [G0 G1].
  change (Qfloor (p * inject_Z (n - 1))) with i in G0, G1.
  generalize dependent (p * inject_Z (n - 1) - inject_Z i). intros g G0 G1.
  generalize dependent (nth (Z.to_nat i) s 0).
  generalize dependent (nth (Z.to_nat (Z.min (i + 1) (n - 1))) s 0).
  intros hi lo Hle.
  assert (P1 : 0 <= (hi - lo) * g) by (apply Qmult_le_0_compat; lra).
  assert (P2 : 0 <= (hi - lo) * (1 - g)) by (apply Qmult_le_0_compat; lra).
  split; lra.
Qed.

Lemma rank_mono p q n : p <= q -> (0 < n)%nat -> (rank p n <= rank q n)%Z.
Proof.
  intros Hpq Hn. unfold rank. apply Qfloor_resp_le.
  apply Qmult_le_compat_r; [exact Hpq |].
  change 0 with (inject_Z 0). rewrite <- Zle_Qle. lia.
Qed.

Lemma quantile_mono p q xs :
  0 <= p -> p <= q -> q <= 1 -> xs <> [] -> quantile p xs <= quantile q xs.
Proof.
  intros H0 Hpq H1 Hx.
  assert (Hp1 : p <= 1) by lra. assert (Hq0 : 0 <= q) by lra.
  assert (Hn : (0 < length (np_sort xs))%nat).
  { rewrite np_sort_length. destruct xs; [congruence | simpl; lia]. }
  pose proof (rank_bounds p _ H0 Hp1 Hn) as Bp.
  pose proof (rank_bounds q _ Hq0 H1 Hn) as Bq.
  pose proof (rank_mono p q _ Hpq Hn) as Hr.
  destruct (Z.eq_dec (rank p (length (np_sort xs))) (rank q (length (np_sort xs))))
    as [E | NE].
  - unfold quantile. cbv zeta. fold (rank p (length (np_sort xs))).
    fold (rank q (length (np_sort xs))). rewrite <- E.
    set (i := rank p (length (np_sort xs))) in *.
    set (n := Z.of_nat (length (np_sort xs))) in *.
    assert (Hle : nth (Z.to_nat i) (np_sort xs) 0
                  <= nth (Z.to_nat (Z.min (i + 1) (n - 1))) (np_sort xs) 0).
    { apply sorted_nth_le; [apply np_sort_sorted | unfold n; lia | unfold n; lia]. }
    assert (Hm : 0 <= inject_Z (n - 1)).
    { change 0 with (inject_Z 0). rewrite <- Zle_Qle. unfold n. lia. }
    assert (Hg : p * inject_Z (n - 1) <= q * inject_Z (n - 1))
      by (apply Qmult_le_compat_r; assumption).
    generalize dependent (nth (Z.to_nat i) (np_sort xs) 0).
    generalize dependent (nth (Z.to_nat (Z.min (i + 1) (n - 1))) (np_sort xs) 0).
    intros hi lo Hle.
    generalize dependent (p * inject_Z (n - 1)).
    generalize dependent (q * inject_Z (n - 1)).
    intros hq hp Hg.
    assert (P : 0 <= (hi - lo) * (hq - hp)) by (apply Qmult_le_0_compat; lra).
    lra.
  - destruct (quantile_between p xs H0 Hp1 Hx) as [_ Up].
    destruct (quantile_between q xs Hq0 H1 Hx) as [Lq _].
    cbv zeta in Up, Lq.
    eapply Qle_trans; [exact Up |]. eapply Qle_trans; [| exact Lq].
    apply sorted_nth_le; [apply np_sort_sorted | lia | lia].
Qed.

Lemma quartiles_ordered xs : xs <> [] -> quantile (1 # 4) xs <= quantile (3 # 4) xs.
Proof. intros H. apply quantile_mono; [lra | lra | lra | exact H]. Qed.


(** ** Extremes *)

Lemma np_min_le x xs : forall v, In v (x :: xs) -> np_min x xs <= v.
Proof.
  induction xs as [| y r IH]; intros v Hv; simpl in *.
  - destruct Hv as [<- | []]. apply Qle_refl.
  - destruct Hv as [<- | [<- | Hv]].
    + eapply Qle_trans; [apply Q.le_min_r | apply IH; now left].
    + apply Q.le_min_l.
    + eapply Qle_trans; [apply Q.le_min_r | apply IH; now right].
Qed.

Lemma np_max_ge x xs : forall v, In v (x :: xs) -> v <= np_max x xs.
Proof.
  induction xs as [| y r IH]; intros v Hv; simpl in *.
  - destruct Hv as [<- | []]. apply Qle_refl.
  - destruct Hv as [<- | [<- | Hv]].
    + eapply Qle_trans; [apply IH; now left | apply Q.le_max_r].
    + apply Q.le_max_l.
    + eapply Qle_trans; [apply IH; now right | apply Q.le_max_r].
Qed.

Lemma Qmin_cases a b : Qmin a b = a \/ Qmin a b = b.
Proof. unfold Qmin, GenericMinMax.gmin. destruct (a ?= b); auto. Qed.

Lemma Qmax_cases a b : Qmax a b = a \/ Qmax a b = b.
Proof. unfold Qmax, GenericMinMax.gmax. destruct (a ?= b); auto. Qed.

Lemma np_min_in x xs : In (np_min x xs) (x :: xs).
Proof.
  induction xs as [| y r IH]; simpl; [now left |].
  destruct (Qmin_cases y (np_min x r)) as [E | E]; rewrite E.
  - right; now left.
  - simpl in IH. tauto.
Qed.

Lemma np_max_in x xs : In (np_max x xs) (x :: xs).
Proof.
  induction xs as [| y r IH]; simpl; [now left |].
  destruct (Qmax_cases y (np_max x r)) as [E | E]; rewrite E.
  - right; now left.
  - simpl in IH. tauto.
Qed.


(** ** The box plot *)

Lemma Qltb_lt a b : Qltb a b = true <-> a < b.
Proof.
  unfold Qltb. rewrite negb_true_iff, <- not_true_iff_false, Qle_bool_iff.
  split; [apply Qnot_le_lt | apply Qlt_not_le].
Qed.

Lemma in_filter_le (c : Q) (x : list Q) (v : Q) :
  In v (filter (fun u => Qle_bool c u) x) <-> In v x /\ c <= v.
Proof. rewrite filter_In, Qle_bool_iff. reflexivity. Qed.

Lemma in_filter_ge (c : Q) (x : list Q) (v : Q) :
  In v (filter (fun u => Qle_bool u c) x) <-> In v x /\ v <= c.
Proof. rewrite filter_In, Qle_bool_iff. reflexivity. Qed.

Lemma filter_length_perm {T : Type} (p : T -> bool) (l l' : list T) :
  Permutation l l' -> length (filter p l) = length (filter p l').
Proof.
  induction 1; simpl; try congruence.
  - destruct (p x); simpl; congruence.
  - destruct (p x), (p y); reflexivity.
Qed.

Lemma filter_length_mono {T : Type} (p q : T -> bool) (l : list T) :
  (forall x, In x l -> p x = true -> q x = true) ->
  (length (filter p l) <= length (filter q l))%nat.
Proof.
  induction l as [| x l IH]; intros H; simpl; [lia |].
  assert (IH' : (length (filter p l) <= length (filter q l))%nat)
    by (apply IH; intros y Hy; apply H; now right).
  destruct (p x) eqn:P.
  - rewrite (H x (or_introl eq_refl) P). simpl. lia.
  - destruct (q x); simpl; lia.
Qed.

Lemma filter_none {T : Type} (p : T -> bool) (l : list T) :
  (forall x, In x l -> p x = false) -> filter p l = [].
Proof.
  induction l as [| x l IH]; intros H; simpl; [reflexivity |].
  rewrite (H x (or_introl eq_refl)). apply IH. intros y Hy. apply H. now right.
Qed.

Lemma filter_all {T : Type} (p : T -> bool) (l : list T) :
  (forall x, In x l -> p x = true) -> filter p l = l.
Proof.
  induction l as [| x l IH]; intros H; simpl; [reflexivity |].
  rewrite (H x (or_introl eq_refl)). f_equal. apply IH. intros y Hy. apply H. now right.
Qed.

(** In a sorted array at most [k] elements are below the element of rank
    [k], and more than [k] are up to it. *)
Lemma rank_counts (s : list Q) (k : nat) :
  StronglySorted Qle s -> (k < length s)%nat ->
  (below (nth k s 0%Q) s <= k)%nat /\ (k < upto (nth k s 0%Q) s)%nat.
Proof.
  intros Sd Hk. set (v := nth k s 0). split.
  - unfold below. rewrite <- (firstn_skipn k s) at 1.
    rewrite filter_app, length_app.
    rewrite (filter_none _ (skipn k s)).
    + pose proof (filter_length_le (fun x => Qltb x v) (firstn k s)).
      pose proof (firstn_le_length k s). simpl. lia.
    + intros x Hx. apply (In_nth _ _ 0) in Hx. destruct Hx as [j [Hj <-]].
      rewrite length_skipn in Hj. rewrite nth_skipn.
      apply not_true_iff_false. rewrite Qltb_lt. apply Qle_not_lt.
      apply sorted_nth_le; [exact Sd | lia | lia].
  - unfold upto. rewrite <- (firstn_skipn (S k) s) at 1.
    rewrite filter_app, length_app.
    rewrite (filter_all _ (firstn (S k) s)).
    + rewrite length_firstn. lia.
    + intros x Hx. apply (In_nth _ _ 0) in Hx. destruct Hx as [j [Hj <-]].
      rewrite length_firstn in Hj. rewrite nth_firstn.
      assert (J : (j <? S k)%nat = true) by (apply Nat.ltb_lt; lia). rewrite J.
      apply Qle_bool_iff. apply sorted_nth_le; [exact Sd | lia | lia].
Qed.

(** Two sorted arrangements of the same elements agree rank by rank. *)
Lemma sorted_ranks_agree (s t : list Q) (k : nat) :
  StronglySorted Qle s -> StronglySorted Qle t -> Permutation s t ->
  nth k s 0 == nth k t 0.
Proof.
  intros Ss St P. pose proof (Permutation_length P) as L.
  destruct (Nat.lt_ge_cases k (length s)) as [Hk | Hk];
    [| rewrite !nth_overflow by lia; reflexivity].
  assert (Hk' : (k < length t)%nat) by lia.
  destruct (rank_counts s k Ss Hk) as [Bs Us].
  destruct (rank_counts t k St Hk') as [Bt Ut].
  set (v := nth k s 0) in *. set (w := nth k t 0) in *.
  destruct (Q_dec v w) as [[Lt | Gt] | E]; [exfalso | exfalso | exact E].
  - assert (M : (upto v t <= below w t)%nat).
    { apply filter_length_mono. intros x _ H. apply Qle_bool_iff in H.
      apply Qltb_lt. lra. }
    unfold upto in Us. rewrite (filter_length_perm _ _ _ P) in Us. fold (upto v t) in Us. lia.
  - assert (M : (upto w s <= below v s)%nat).
    { apply filter_length_mono. intros x _ H. apply Qle_bool_iff in H.
      apply Qltb_lt. lra. }
    unfold upto in Ut. rewrite <- (filter_length_perm _ _ _ P) in Ut. fold (upto w s) in Ut. lia.
Qed.

Lemma quantile_perm p xs ys : Permutation xs ys -> quantile p xs == quantile p ys.
Proof.
  intros P.
  assert (PS : Permutation (np_sort xs) (np_sort ys)).
  { eapply Permutation_trans; [apply Permutation_sym, np_sort_perm |].
    eapply Permutation_trans; [exact P | apply np_sort_perm]. }
  pose proof (Permutation_length PS) as L.
  unfold quantile. cbv zeta. rewrite <- L.
  rewrite (sorted_ranks_agree _ _ _ (np_sort_sorted xs) (np_sort_sorted ys) PS).
  rewrite (sorted_ranks_agree (np_sort xs) (np_sort ys) (Z.to_nat (Z.min _ _))
             (np_sort_sorted xs) (np_sort_sorted ys) PS).
  reflexivity.
Qed.

Section Whiskers.

Variable x : list Q.
Hypothesis nonempty : x <> [].

Let q1 := quantile (1 # 4) x.
Let q3 := quantile (3 # 4) x.
Let b := boxplot_stats (3 # 2) x.

Lemma fences_ordered :
  q1 - (3 # 2) * (q3 - q1) <= q1 /\ q3 <= q3 + (3 # 2) * (q3 - q1).
Proof.
  pose proof (quartiles_ordered x nonempty) as H. fold q1 q3 in H. split; lra.
Qed.

Lemma below_whisker v :
  In v x -> (v < b_whislo b <-> v < q1 - (3 # 2) * (q3 - q1)).
Proof.
  intros Hv. destruct fences_ordered as [Hlo _].
  unfold b, boxplot_stats. cbv zeta. simpl b_whislo. fold q1 q3.
  set (loval := q1 - (3 # 2) * (q3 - q1)) in *.
  destruct (filter (fun u => Qle_bool loval u) x) as [| w ws] eqn:F.
  - split; [| lra]. intros _.
    destruct (Qlt_le_dec v loval) as [L | L]; [exact L | exfalso].
    assert (I : In v (filter (fun u => Qle_bool loval u) x))
      by (apply in_filter_le; now split).
    rewrite F in I. destruct I.
  - assert (Hm : forall u, In u x -> loval <= u -> np_min w ws <= u).
    { intros u Hu Hl. apply np_min_le. rewrite <- F. apply in_filter_le. now split. }
    assert (Hin : loval <= np_min w ws).
    { pose proof (np_min_in w ws) as I. rewrite <- F in I.
      apply in_filter_le in I. tauto. }
    destruct (Qltb q1 (np_min w ws)) eqn:E.
    + apply Qltb_lt in E. split; [| lra]. intros L.
      destruct (Qlt_le_dec v loval) as [L' | L']; [exact L' | exfalso].
      specialize (Hm v Hv L'). lra.
    + split; [| lra]. intros L.
      destruct (Qlt_le_dec v loval) as [L' | L']; [exact L' | exfalso].
      specialize (Hm v Hv L'). lra.
Qed.

Lemma above_whisker v :
  In v x -> (b_whishi b < v <-> q3 + (3 # 2) * (q3 - q1) < v).
Proof.
  intros Hv. destruct fences_ordered as [_ Hhi].
  unfold b, boxplot_stats. cbv zeta. simpl b_whishi. fold q1 q3.
  set (hival := q3 + (3 # 2) * (q3 - q1)) in *.
  destruct (filter (fun u => Qle_bool u hival) x) as [| w ws] eqn:F.
  - split; [| lra]. intros _.
    destruct (Qlt_le_dec hival v) as [L | L]; [exact L | exfalso].
    assert (I : In v (filter (fun u => Qle_bool u hival) x))
      by (apply in_filter_ge; now split).
    rewrite F in I. destruct I.
  - assert (Hm : forall u, In u x -> u <= hival -> u <= np_max w ws).
    { intros u Hu Hl. apply np_max_ge. rewrite <- F. apply in_filter_ge. now split. }
    assert (Hin : np_max w ws <= hival).
    { pose proof (np_max_in w ws) as I. rewrite <- F in I.
      apply in_filter_ge in I. tauto. }
    destruct (Qltb (np_max w ws) q3) eqn:E.
    + apply Qltb_lt in E. split; [| lra]. intros L.
      destruct (Qlt_le_dec hival v) as [L' | L']; [exact L' | exfalso].
      specialize (Hm v Hv L'). lra.
    + split; [| lra]. intros L.
      destruct (Qlt_le_dec hival v) as [L' | L']; [exact L' | exfalso].
      specialize (Hm v Hv L'). lra.
Qed.

(** The fliers of a box are the data strictly outside the fences. *)
Lemma fliers_beyond_fences v :
  In v (b_fliers b) <->
  In v x /\ (v < q1 - (3 # 2) * (q3 - q1) \/ q3 + (3 # 2) * (q3 - q1) < v).
Proof.
  unfold b at 1, boxplot_stats. cbv zeta. simpl b_fliers.
  rewrite in_app_iff, !filter_In, !Qltb_lt.
  change (boxplot_stats (3 # 2) x) with b.
  split.
  - intros [[Hv H] | [Hv H]]; (split; [exact Hv |]).
    + left. now apply below_whisker.
    + right. now apply above_whisker.
  - intros [Hv [H | H]].
    + left. split; [exact Hv | now apply below_whisker].
    + right. split; [exact Hv | now apply above_whisker].
Qed.

End Whiskers.


(** ** The outliers that a run marks *)














Section Outliers.

Variables (df : DataFrame) (b r rt va : list (option Q)).
Hypothesis Hb : lookup "budget" df = Some (NumCol b).
Hypothesis Hr : lookup "revenue" df = Some (NumCol r).
Hypothesis Hrt : lookup "runtime" df = Some (NumCol rt).
Hypothesis Hva : lookup "vote_average" df = Some (NumCol va).

Let t := trace (main (GoodFile df)).



End Outliers.



(** ** The histogram *)

Lemma Qnat_pos n : (0 < n)%nat -> 0 < Qnat n.
Proof.
  intros H. unfold Qnat. change 0 with (inject_Z 0). rewrite <- Zlt_Qlt. lia.
Qed.

Lemma Qnat_S n : Qnat (S n) == Qnat n + 1.
Proof.
  unfold Qnat. rewrite Nat2Z.inj_succ, <- Z.add_1_r, inject_Z_plus. reflexivity.
Qed.


Section Bins.

Variables first last : Q.
Variable bins : nat.
Hypothesis range : first < last.
Hypothesis some_bins : (0 < bins)%nat.















End Bins.
















(** ** The correlation matrix *)





Lemma sumQ_squares_nonneg {A : Type} (f : A -> Q) (l : list A) :
  0 <= sumQ (map (fun a => f a * f a) l).
Proof.
  induction l as [| a l IH]; simpl; [apply Qle_refl |].
  assert (H : 0 <= f a * f a) by nra. lra.
Qed.

Lemma ssq_dev_nonneg xs : 0 <= ssq_dev xs.
Proof. unfold ssq_dev. apply (sumQ_squares_nonneg (fun x => x - mean xs)). Qed.

Lemma ssq_dev_single x : ssq_dev [x] == 0.
Proof. unfold ssq_dev, mean, sumQ, Qnat. simpl. field. Qed.







Lemma Qeq_bool_comp a b : a == b -> Qeq_bool a 0 = Qeq_bool b 0.
Proof.
  intros E. destruct (Qeq_bool b 0) eqn:B.
  - apply Qeq_bool_iff. apply Qeq_bool_iff in B. now rewrite E.
  - apply not_true_iff_false. intros A. apply Qeq_bool_iff in A.
    apply Qeq_bool_neq in B. apply B. now rewrite <- E.
Qed.





(** A defined entry has a positive number under its square root. *)
Lemma pearson_radicand_positive ps c d : pearson ps = CorrVal c d -> 0 < d.
Proof.
  unfold pearson. destruct (length ps <? 1)%nat; [discriminate |].
  destruct (Qeq_bool _ 0) eqn:E; [discriminate |].
  intros H. inversion H; subst c d. apply Qeq_bool_neq in E.
  pose proof (ssq_dev_nonneg (map fst ps)) as Nx.
  pose proof (ssq_dev_nonneg (map snd ps)) as Ny.
  assert (N : 0 <= ssq_dev (map fst ps) * ssq_dev (map snd ps))
    by (apply Qmult_le_0_compat; assumption).
  destruct (Qlt_le_dec 0 (ssq_dev (map fst ps) * ssq_dev (map snd ps))) as [P | P];
    [exact P |].
  exfalso. apply E. apply Qle_antisym; assumption.
Qed.



(** [corr_abs_geb] decides [t <= |v|] on the real value of the entry. *)
Lemma corr_abs_geb_spec t c d :
  0 <= t -> 0 < d ->
  (corr_abs_geb t (CorrVal c d) = true <->
   (Q2R t <= Rabs (Q2R c / sqrt (Q2R d)))%R).
Proof.
  intros Ht Hd. simpl. rewrite Qle_bool_iff.
  apply Qle_Rle in Ht. apply Qlt_Rlt in Hd. rewrite RMicromega.Q2R_0 in Ht, Hd.
  pose proof (sqrt_lt_R0 _ Hd) as Hs.
  assert (Hq : (sqrt (Q2R d) * sqrt (Q2R d) = Q2R d)%R) by (apply sqrt_sqrt; lra).
  assert (Ha : (Rabs (Q2R c / sqrt (Q2R d)) = Rabs (Q2R c) / sqrt (Q2R d))%R).
  { unfold Rdiv. rewrite Rabs_mult, (Rabs_pos_eq (/ sqrt (Q2R d))); [reflexivity |].
    left. now apply Rinv_0_lt_compat. }
  rewrite Ha.
  assert (Hm : (Q2R t <= Rabs (Q2R c) / sqrt (Q2R d) <->
                Q2R t * sqrt (Q2R d) <= Rabs (Q2R c))%R).
  { split; intros H.
    - apply (Rmult_le_compat_r (sqrt (Q2R d))) in H; [| lra].
      replace (Rabs (Q2R c) / sqrt (Q2R d) * sqrt (Q2R d))%R with (Rabs (Q2R c)) in H
        by (field; lra).
      exact H.
    - apply (Rmult_le_reg_r (sqrt (Q2R d))); [exact Hs |].
      replace (Rabs (Q2R c) / sqrt (Q2R d) * sqrt (Q2R d))%R with (Rabs (Q2R c))
        by (field; lra).
      exact H. }
  rewrite Hm.
  assert (Hp : (0 <= Q2R t * sqrt (Q2R d))%R) by (apply Rmult_le_pos; lra).
  split; intros H.
  - apply Qle_Rle in H. rewrite !Q2R_mult in H.
    rewrite <- (Rabs_pos_eq _ Hp). apply Rsqr_le_abs_0. unfold Rsqr.
    replace (Q2R t * sqrt (Q2R d) * (Q2R t * sqrt (Q2R d)))%R
      with (Q2R t * Q2R t * (sqrt (Q2R d) * sqrt (Q2R d)))%R by ring.
    now rewrite Hq.
  - apply Rle_Qle. rewrite !Q2R_mult.
    rewrite <- (Rabs_pos_eq _ Hp) in H. apply Rsqr_le_abs_1 in H. unfold Rsqr in H.
    replace (Q2R t * sqrt (Q2R d) * (Q2R t * sqrt (Q2R d)))%R
      with (Q2R t * Q2R t * (sqrt (Q2R d) * sqrt (Q2R d)))%R in H by ring.
    now rewrite Hq in H.
Qed.

Lemma entry_corr (ndf : NumFrame) (i j : nat) :
  (i < length ndf)%nat -> (j < length ndf)%nat ->
  entry (corr ndf) i j = corr_entry (column_cells ndf i) (column_cells ndf j).
Proof.
  intros Hi Hj. unfold entry, corr, column_cells.
  set (row := fun r : string * list (option Q) =>
                (fst r, map (fun c : string * list (option Q) =>
                               (fst c, corr_entry (snd r) (snd c))) ndf)).
  rewrite (nth_indep _ _ (row (EmptyString, []))) by (rewrite length_map; exact Hi).
  rewrite (map_nth row). unfold row at 1. simpl snd. rewrite map_map. simpl.
  rewrite (nth_indep _ _ (corr_entry (snd (nth i ndf (EmptyString, [])))
                                    (snd (EmptyString, @nil (option Q)))))
    by (rewrite length_map; exact Hj).
  now rewrite (map_nth (fun c => corr_entry (snd (nth i ndf (EmptyString, []))) (snd c))).
Qed.

(** The heat map of line 193 shows the correlation matrix of the four
    numeric columns. *)
Lemma bivariate_heatmap df b r rt va :
  lookup "budget" df = Some (NumCol b) ->
  lookup "revenue" df = Some (NumCol r) ->
  lookup "runtime" df = Some (NumCol rt) ->
  lookup "vote_average" df = Some (NumCol va) ->
  heatmap_of (trace (bivariate df)) =
  Some (corr [("budget", b); ("revenue", r); ("runtime", rt); ("vote_average", va)]).
Proof.
  intros Hb Hr Hrt Hva. unfold bivariate, getitems.
  simpl filter. simpl flat_map.
  rewrite (lookup_has_column _ _ _ Hb), (lookup_has_column _ _ _ Hr),
    (lookup_has_column _ _ _ Hrt), (lookup_has_column _ _ _ Hva), Hb, Hr, Hrt, Hva.
  reflexivity.
Qed.





(** ** [describe] *)

Lemma np_sort_in xs v : In v (np_sort xs) <-> In v xs.
Proof.
  split; intros H.
  - exact (Permutation_in _ (Permutation_sym (np_sort_perm xs)) H).
  - exact (Permutation_in _ (np_sort_perm xs) H).
Qed.

(** A quantile of a non-empty array lies between its extremes. *)
Lemma quantile_within p x rest :
  0 <= p -> p <= 1 ->
  np_min x rest <= quantile p (x :: rest) /\ quantile p (x :: rest) <= np_max x rest.
Proof.
  intros H0 H1.
  assert (Hx : x :: rest <> []) by discriminate.
  destruct (quantile_between p (x :: rest) H0 H1 Hx) as [L U]. cbv zeta in L, U.
  assert (Hn : (0 < length (np_sort (x :: rest)))%nat)
    by (rewrite np_sort_length; simpl; lia).
  pose proof (rank_bounds p _ H0 H1 Hn) as B.
  split.
  - eapply Qle_trans; [| exact L]. apply np_min_le, np_sort_in, nth_In. lia.
  - eapply Qle_trans; [exact U |]. apply np_max_ge, np_sort_in, nth_In. lia.
Qed.

Lemma present_length vs : (length (present vs) + count_none vs = length vs)%nat.
Proof.
  unfold count_none. induction vs as [| [v |] r IH]; simpl; lia.
Qed.

(** The statistics of a column with a present cell: the count is the
    number of present cells, and minimum, quartiles and maximum are
    finite and in order; the variance is a finite number, not negative,
    when there are two cells or more, and NaN when there is one. *)
Theorem describe_ordered (vs : list (option Q)) :
  present vs <> [] ->
  let d := describe_series vs in
  (d_count d + count_none vs = length vs)%nat /\
  (exists mn q1 q2 q3 mx,
     d_min d = Fin mn /\ d_q25 d = Fin q1 /\ d_q50 d = Fin q2 /\ d_q75 d = Fin q3 /\
     d_max d = Fin mx /\
     mn <= q1 /\ q1 <= q2 /\ q2 <= q3 /\ q3 <= mx) /\
  ((2 <= d_count d)%nat -> exists v, d_var d = Fin v /\ 0 <= v) /\
  (d_count d = 1%nat -> d_var d = NaN).
Proof.
  intros Hx d. unfold d, describe_series.
  pose proof (present_length vs) as Hl.
  destruct (present vs) as [| x rest] eqn:E; [congruence |]. cbv zeta. cbn [d_count d_min d_q25 d_q50 d_q75 d_max d_mean d_var].
  split; [exact Hl |]. split.
  - exists (np_min x rest), (quantile (1 # 4) (x :: rest)), (quantile (1 # 2) (x :: rest)),
      (quantile (3 # 4) (x :: rest)), (np_max x rest).
    repeat (split; [reflexivity |]).
    destruct (quantile_within (1 # 4) x rest) as [A _]; [lra | lra |].
    destruct (quantile_within (3 # 4) x rest) as [_ B]; [lra | lra |].
    assert (Hne : x :: rest <> []) by discriminate.
    repeat split; try assumption; apply quantile_mono; try lra; exact Hne.
  - assert (S1 : Qnat (length (x :: rest)) - 1 == Qnat (length rest)).
    { simpl length. rewrite Qnat_S. ring. }
    unfold true_divide. rewrite (Qeq_bool_comp _ _ S1), Qnat_eq0. split.
    + intros H2. destruct rest as [| y r]; [simpl in H2; lia |]. simpl Nat.eqb. cbv iota.
      eexists. split; [reflexivity |].
      apply Qle_shift_div_l.
      * rewrite S1. apply Qnat_pos. simpl. lia.
      * rewrite Qmult_0_l. apply ssq_dev_nonneg.
    + intros H1. destruct rest as [| y r]; [| simpl in H1; lia]. simpl Nat.eqb. cbv iota.
      assert (Z : Qeq_bool (ssq_dev [x]) 0 = true) by (apply Qeq_bool_iff, ssq_dev_single).
      now rewrite Z.
Qed.

(** The theorem at the runtime column of the built-in table. *)
Lemma describe_ordered_witness :
  (d_count (describe_series sample_runtime) + count_none sample_runtime
   = length sample_runtime)%nat.
Proof.
  exact (proj1 (describe_ordered sample_runtime
                  (fun H => @nil_cons Q 162 [194; 143; 122; 148] (eq_sym H)))).
Defined.

(** ** [value_counts] *)

Lemma cell_eqb_refl a : cell_eqb a a = true.
Proof.
  destruct a; simpl; [apply Qeq_bool_iff; reflexivity | apply String.eqb_refl | apply Bool.eqb_reflx].
Qed.

Lemma cell_eqb_sym a b : cell_eqb a b = cell_eqb b a.
Proof.
  destruct a, b; simpl; try reflexivity.
  - destruct (Qeq_bool q q0) eqn:E, (Qeq_bool q0 q) eqn:F; try reflexivity.
    + apply Qeq_bool_iff in E. apply Qeq_bool_neq in F. elim F. now symmetry.
    + apply Qeq_bool_iff in F. apply Qeq_bool_neq in E. elim E. now symmetry.
  - apply String.eqb_sym.
  - destruct b, b0; reflexivity.
Qed.

Lemma cell_eqb_trans a b c :
  cell_eqb a b = true -> cell_eqb b c = true -> cell_eqb a c = true.
Proof.
  destruct a, b, c; simpl; try discriminate.
  - rewrite !Qeq_bool_iff. intros H1 H2. now rewrite H1.
  - rewrite !String.eqb_eq. congruence.
  - rewrite !Bool.eqb_true_iff. congruence.
Qed.

(** Equal cells are equal to the same cells. *)
Lemma cell_eqb_congr a b k : cell_eqb a b = true -> cell_eqb a k = cell_eqb b k.
Proof.
  intros H. destruct (cell_eqb b k) eqn:E.
  - now apply (cell_eqb_trans a b k).
  - destruct (cell_eqb a k) eqn:F; [| reflexivity].
    rewrite <- E. symmetry. apply (cell_eqb_trans b a k); [| exact F].
    now rewrite cell_eqb_sym.
Qed.

Lemma count_for_bump x k t :
  count_for k (bump x t) = (count_for k t + if cell_eqb x k then 1 else 0)%nat.
Proof.
  unfold count_for. induction t as [| [y n] r IH]; simpl.
  - destruct (cell_eqb x k); reflexivity.
  - destruct (cell_eqb y x) eqn:E; simpl.
    + rewrite <- (cell_eqb_congr y x k E).
      destruct (cell_eqb y k); simpl; lia.
    + destruct (cell_eqb y k); simpl; rewrite IH; lia.
Qed.

Lemma rows_for_bump x k t :
  rows_for k (bump x t) =
  if existsb (fun e => cell_eqb (fst e) x) t then rows_for k t
  else (rows_for k t + if cell_eqb x k then 1 else 0)%nat.
Proof.
  unfold rows_for. induction t as [| [y n] r IH]; simpl.
  - destruct (cell_eqb x k); reflexivity.
  - destruct (cell_eqb y x) eqn:E; simpl.
    + destruct (cell_eqb y k); reflexivity.
    + destruct (cell_eqb y k); simpl; rewrite IH;
        destruct (existsb (fun e => cell_eqb (fst e) x) r); lia.
Qed.

Lemma rows_for_none x k t :
  existsb (fun e => cell_eqb (fst e) x) t = false -> cell_eqb x k = true ->
  rows_for k t = 0%nat.
Proof.
  unfold rows_for. intros H E. induction t as [| [y n] r IH]; simpl in *; [reflexivity |].
  apply orb_false_iff in H. destruct H as [Hy Hr].
  assert (F : cell_eqb y k = false).
  { destruct (cell_eqb y k) eqn:F; [| reflexivity].
    rewrite (cell_eqb_sym x k) in E.
    rewrite (cell_eqb_trans y k x F E) in Hy. discriminate. }
  rewrite F. now apply IH.
Qed.

Lemma bump_one_row_each x t : one_row_each t -> one_row_each (bump x t).
Proof.
  intros H k. rewrite rows_for_bump.
  destruct (existsb (fun e => cell_eqb (fst e) x) t) eqn:E; [apply H |].
  destruct (cell_eqb x k) eqn:F; [| specialize (H k); lia].
  rewrite (rows_for_none x k t E F). lia.
Qed.

Lemma bump_positive x t :
  Forall (fun e => (1 <= snd e)%nat) t -> Forall (fun e => (1 <= snd e)%nat) (bump x t).
Proof.
  induction 1 as [| [y n] r Hy Hr IH]; simpl.
  - repeat constructor.
  - destruct (cell_eqb y x); constructor; simpl in *; try lia; assumption.
Qed.

Lemma bump_sum x t : list_sum (map snd (bump x t)) = S (list_sum (map snd t)).
Proof.
  induction t as [| [y n] r IH]; simpl; [reflexivity |].
  destruct (cell_eqb y x); simpl; [reflexivity | rewrite IH; lia].
Qed.

Lemma tally_invariant xs t :
  one_row_each t -> Forall (fun e => (1 <= snd e)%nat) t ->
  let t' := fold_left (fun acc x => bump x acc) xs t in
  one_row_each t' /\ Forall (fun e => (1 <= snd e)%nat) t' /\
  (forall k, count_for k t' = (count_for k t + occurrences k xs)%nat) /\
  list_sum (map snd t') = (list_sum (map snd t) + length xs)%nat.
Proof.
  revert t. induction xs as [| x xs IH]; intros t H1 H2; simpl.
  - repeat split; try assumption; intros; unfold occurrences; simpl; lia.
  - destruct (IH (bump x t) (bump_one_row_each x t H1) (bump_positive x t H2))
      as (A & B & C & D).
    repeat split; try assumption.
    + intros k. rewrite C, count_for_bump. unfold occurrences. simpl.
      destruct (cell_eqb x k); simpl; lia.
    + rewrite D, bump_sum. lia.
Qed.

Lemma rows_for_perm k t t' : Permutation t t' -> rows_for k t = rows_for k t'.
Proof.
  unfold rows_for. induction 1; simpl; try congruence.
  - destruct (cell_eqb (fst x) k); simpl; congruence.
  - destruct (cell_eqb (fst x) k), (cell_eqb (fst y) k); reflexivity.
Qed.

Lemma count_for_perm k t t' : Permutation t t' -> count_for k t = count_for k t'.
Proof.
  unfold count_for. induction 1; simpl; try congruence.
  - destruct (cell_eqb (fst x) k); simpl; congruence.
  - destruct (cell_eqb (fst x) k), (cell_eqb (fst y) k); simpl; lia.
Qed.

Lemma list_sum_perm (l l' : list nat) : Permutation l l' -> list_sum l = list_sum l'.
Proof. induction 1; simpl; lia. Qed.

(** In a table with one row per value, the count of a row is the sum of
    the counts for its value. *)
Lemma count_for_row k n t : one_row_each t -> In (k, n) t -> count_for k t = n.
Proof.
  intros H Hin. specialize (H k). unfold rows_for, count_for in *.
  assert (I : In (k, n) (filter (fun e => cell_eqb (fst e) k) t)).
  { apply filter_In. split; [exact Hin | apply cell_eqb_refl]. }
  destruct (filter (fun e => cell_eqb (fst e) k) t) as [| e [| e' r]]; simpl in *.
  - destruct I.
  - destruct I as [-> | []]. simpl. lia.
  - lia.
Qed.

Lemma count_for_positive k t :
  (0 < count_for k t)%nat -> exists e, In e t /\ cell_eqb (fst e) k = true.
Proof.
  unfold count_for. intros H.
  destruct (filter (fun e => cell_eqb (fst e) k) t) as [| e r] eqn:E; [simpl in H; lia |].
  exists e. apply (proj1 (filter_In (fun e => cell_eqb (fst e) k) e t)).
  rewrite E. now left.
Qed.

(** What [value_counts] returns: one row per distinct present value, with
    the number of cells that hold it, the rows in descending order of the
    count; every present cell is counted in a row, and the counts add up to
    the number of present cells. *)
Theorem value_counts_counts (c : column) :
  let t := value_counts c in
  descending snd t /\
  one_row_each t /\
  (forall k n, In (k, n) t -> n = occurrences k (cells c) /\ (1 <= n)%nat) /\
  (forall x, In x (cells c) -> exists k n, In (k, n) t /\ cell_eqb k x = true) /\
  list_sum (map snd t) = length (cells c).
Proof.
  intros t. unfold t, value_counts.
  pose proof (sort_desc_perm snd (tally (cells c))) as P.
  assert (I0 : one_row_each []) by (intros k; unfold rows_for; simpl; lia).
  destruct (tally_invariant (cells c) [] I0 (Forall_nil _)) as (A & B & C & D).
  fold (tally (cells c)) in A, B, C, D.
  split; [apply sort_desc_sorted |].
  assert (A' : one_row_each (sort_desc snd (tally (cells c)))).
  { intros k. rewrite (rows_for_perm k _ _ P). apply A. }
  split; [exact A' |]. split; [| split].
  - intros k n Hin. split.
    + rewrite <- (count_for_row k n _ A' Hin), (count_for_perm k _ _ P), C.
      reflexivity.
    + rewrite Forall_forall in B.
      exact (B (k, n) (Permutation_in _ P Hin)).
  - intros x Hx.
    assert (O : (0 < occurrences x (cells c))%nat).
    { unfold occurrences.
      assert (I : In x (filter (fun y => cell_eqb y x) (cells c)))
        by (apply filter_In; split; [exact Hx | apply cell_eqb_refl]).
      destruct (filter (fun y => cell_eqb y x) (cells c)); [destruct I | simpl; lia]. }
    assert (O' : (0 < count_for x (tally (cells c)))%nat) by (rewrite C; simpl; lia).
    destruct (count_for_positive _ _ O') as [[k n] [Hin E]].
    exists k, n. split; [exact (Permutation_in _ (Permutation_sym P) Hin) | exact E].
  - rewrite (list_sum_perm _ _ (Permutation_map snd P)), D. reflexivity.
Qed.

(** ** Column selection *)

Lemma has_column_lookup df n : has_column n df = true -> exists c, lookup n df = Some c.
Proof. unfold has_column. destruct (lookup n df) as [c |]; [now exists c | discriminate]. Qed.

Lemma selection_lookup df names :
  (forall n, In n names -> has_column n df = true) ->
  let sel := flat_map (fun n => match lookup n df with
                                | Some c => [(n, c)]
                                | None => []
                                end) names in
  map fst sel = names /\ forall n, In n names -> lookup n sel = lookup n df.
Proof.
  induction names as [| a r IH]; intros H; simpl.
  - split; [reflexivity | intros n []].
  - destruct (has_column_lookup df a (H a (or_introl eq_refl))) as [c Hc].
    rewrite Hc. simpl.
    destruct (IH (fun n Hn => H n (or_intror Hn))) as [Hm Hl].
    split; [now rewrite Hm |].
    intros n Hn. destruct (String.eqb a n) eqn:E.
    + apply String.eqb_eq in E. subst n. now rewrite Hc.
    + destruct Hn as [-> | Hn]; [rewrite String.eqb_refl in E; discriminate |].
      now apply Hl.
Qed.

(** [df[names]] succeeds exactly when every name is a column; the frame it
    returns has the names asked for, in the order asked for, and under
    each name the column that [df] has under it; when it fails, the
    [KeyError] lists the names that are no column. *)
Theorem getitems_selects (df : DataFrame) (names : list string) :
  (absent df names = [] ->
   exists sel, getitems names df = inr sel /\ map fst sel = names /\
               forall n, In n names -> lookup n sel = lookup n df) /\
  (absent df names <> [] -> getitems names df = inl (KeyError (absent df names))).
Proof.
  split; [| apply getitems_absent].
  intros H. unfold getitems. unfold absent in H. rewrite H.
  eexists. split; [reflexivity |].
  apply selection_lookup. intros n Hn.
  destruct (has_column n df) eqn:E; [reflexivity |].
  assert (I : In n (filter (fun n => negb (has_column n df)) names))
    by (apply filter_In; split; [exact Hn | now rewrite E]).
  rewrite H in I. destruct I.
Qed.

(** The theorem at the selection of line 139 on the built-in table. *)
Lemma getitems_selects_witness :
  exists sel, getitems ["budget"; "revenue"; "runtime"] dummy = inr sel /\
              map fst sel = ["budget"; "revenue"; "runtime"] /\
              forall n, In n ["budget"; "revenue"; "runtime"] ->
                        lookup n sel = lookup n dummy.
Proof.
  exact (proj1 (getitems_selects dummy ["budget"; "revenue"; "runtime"]) eq_refl).
Defined.

(** ** Runs that complete *)

Lemma never_raises_bind {A B : Type} (P : exn -> Prop) (m : M A) (k : A -> M B) :
  never_raises P m -> (forall a, never_raises P (k a)) -> never_raises P (bind m k).
Proof.
  unfold never_raises, raises. intros Hm Hk e. rewrite result_bind.
  destruct (result m) as [x | a] eqn:E.
  - intros H. inversion H; subst x. now apply Hm.
  - apply Hk.
Qed.

Lemma never_raises_emit (P : exn -> Prop) (e : event) : never_raises P (emit e).
Proof. intros x H. discriminate H. Qed.

Lemma never_raises_ret {A : Type} (P : exn -> Prop) (a : A) : never_raises P (ret a).
Proof. intros x H. discriminate H. Qed.

Lemma never_raises_banner (P : exn -> Prop) (s : string) : never_raises P (banner s).
Proof. intros x H. discriminate H. Qed.

Lemma never_raises_getitems (P : exn -> Prop) names df :
  (forall l, ~ P (KeyError l)) -> never_raises P (lift (getitems names df)).
Proof.
  intros HP e H. unfold raises, lift, result in H. simpl in H.
  unfold getitems in H. destruct (filter _ names); [discriminate |].
  inversion H. apply HP.
Qed.

Lemma never_raises_getitem (P : exn -> Prop) name df :
  (forall l, ~ P (KeyError l)) -> never_raises P (lift (getitem name df)).
Proof.
  intros HP e H. unfold raises, lift, result in H. simpl in H.
  unfold getitem in H. destruct (lookup name df); [discriminate |].
  inversion H. apply HP.
Qed.

Lemma never_raises_numeric (P : exn -> Prop) name c :
  (forall n, ~ P (TypeError n)) -> never_raises P (lift (numeric name c)).
Proof.
  intros HP e H. unfold raises, lift, result in H. simpl in H.
  destruct c; simpl in H; try discriminate; inversion H; apply HP.
Qed.

Lemma never_raises_numeric_frame (P : exn -> Prop) df :
  (forall n, ~ P (TypeError n)) -> never_raises P (lift (numeric_frame df)).
Proof.
  intros HP e H. unfold raises, lift, result in H. simpl in H. revert e H.
  induction df as [| [n c] r IH]; intros e H; simpl in H; [discriminate |].
  destruct (numeric n c) as [x | vs] eqn:E.
  - inversion H; subst x. destruct c; simpl in E; try discriminate; inversion E; apply HP.
  - destruct (numeric_frame r) as [x | nf]; [| discriminate].
    inversion H; subst x. now apply IH.
Qed.

(** Splits a stage into its statements; the selections and conversions
    are left to the two facts about [P]. *)
Ltac stage_exceptions :=
  repeat first
    [ apply never_raises_bind; [| intro ]
    | apply never_raises_banner
    | apply never_raises_emit
    | apply never_raises_ret
    | apply never_raises_getitems
    | apply never_raises_getitem
    | apply never_raises_numeric_frame
    | apply never_raises_numeric ].

(** An absent file never stops a run: whatever is on disk, the run does
    not end with [FileNotFoundError]. *)
Theorem file_not_found_never_escapes (f : csv_file) :
  ~ raises (main f) FileNotFoundError.
Proof.
  assert (K : forall l, ~ is_file_not_found (KeyError l)) by (intros l H; discriminate H).
  assert (T : forall n, ~ is_file_not_found (TypeError n)) by (intros n H; discriminate H).
  assert (A : forall df, never_raises is_file_not_found (analyse df)).
  { intros df. unfold analyse, inspect, quality, univariate, histograms, genres,
      bivariate, insights, print.
    stage_exceptions; assumption. }
  intros H.
  assert (G : forall df, ~ raises (main (GoodFile df)) FileNotFoundError).
  { intros df R. rewrite main_good in R. exact (A df _ R eq_refl). }
  destruct f as [| e | df].
  - discriminate H.
  - destruct e; discriminate H.
  - exact (G df H).
Qed.

Lemma genres_present df g :
  lookup "genre" df = Some g ->
  genres df =
  ([ Print (nl ++ "--- 4.2 Top 5 Movie Genres ---");
     PrintCounts (firstn 5 (value_counts g));
     Countplot (map fst (value_counts g)) g;
     Title "Movie Count by Primary Genre"; Show ], inr tt).
Proof. intros H. unfold genres, getitem. rewrite H. reflexivity. Qed.

Lemma bivariate_numeric df b r rt va :
  lookup "budget" df = Some (NumCol b) ->
  lookup "revenue" df = Some (NumCol r) ->
  lookup "runtime" df = Some (NumCol rt) ->
  lookup "vote_average" df = Some (NumCol va) ->
  result (bivariate df) = inr tt.
Proof.
  intros Hb Hr Hrt Hva. unfold bivariate, getitems, getitem.
  simpl filter. simpl flat_map.
  rewrite (lookup_has_column _ _ _ Hb), (lookup_has_column _ _ _ Hr),
    (lookup_has_column _ _ _ Hrt), (lookup_has_column _ _ _ Hva), Hb, Hr, Hrt, Hva.
  reflexivity.
Qed.

(** A table that has the four numeric columns and a genre column is
    analysed to the end: every stage runs, in the order of the script, and
    the run closes with the insight block. *)
Theorem run_completes (df : DataFrame) (b r rt va : list (option Q)) (g : column) :
  lookup "budget" df = Some (NumCol b) ->
  lookup "revenue" df = Some (NumCol r) ->
  lookup "runtime" df = Some (NumCol rt) ->
  lookup "vote_average" df = Some (NumCol va) ->
  lookup "genre" df = Some g ->
  main (GoodFile df) =
  ((Print "Data Loading Complete." :: trace (inspect df)) ++ trace (quality df) ++
   trace (histograms df) ++ trace (genres df) ++ trace (bivariate df) ++ trace insights,
   inr tt)%list.
Proof.
  intros Hb Hr Hrt Hva Hg. rewrite main_good. unfold analyse, univariate.
  pose proof (quality_numeric _ _ _ _ _ Hb Hr Hrt Hva) as Q.
  destruct (histograms_numeric _ _ _ _ Hb Hrt Hva) as [Hh _].
  pose proof (bivariate_numeric _ _ _ _ _ Hb Hr Hrt Hva) as B.
  pose proof (genres_present _ _ Hg) as G.
  f_equal.
  - rewrite !trace_bind, !result_bind, Q, Hh, B, G. simpl result.
    change (result (inspect df)) with (@inr exn unit tt). cbv iota.
    simpl trace at 4. rewrite <- !app_assoc. reflexivity.
  - rewrite !result_bind, Q, Hh, B, G. reflexivity.
Qed.

(** The theorem at the table of three rows. *)
Lemma run_completes_witness :
  result (main (GoodFile uncorrelated)) = inr tt.
Proof.
  exact (f_equal snd
           (run_completes uncorrelated [Some 1; Some 2; Some 3] [Some 3; Some 0; Some 3]
              [Some 100; Some 110; Some 120] [Some 5; Some 6; Some 7]
              (ObjCol [Some "A"; Some "B"; Some "A"])
              eq_refl eq_refl eq_refl eq_refl eq_refl)).
Defined.

(** ** The printed genres *)



(** ** What every run on a table prints *)

(** Whatever columns a parsed table has, the run prints its first rows,
    its shape, its column info and its missing-value report, in this
    order, before it reaches a statement that can raise. *)
Theorem reports_before_selection (df : DataFrame) :
  exists rest,
    trace (main (GoodFile df)) =
    ([ Print "Data Loading Complete.";
       Print (nl ++ rule); Print "STEP 2: INITIAL DATA INSPECTION"; Print rule;
       Print "--- First 5 Rows ---"; PrintFrame (head df);
       Print (nl ++ "--- Dataset Shape (Rows, Columns) ---"); PrintShape (shape df);
       Print (nl ++ "--- Column Info and Data Types ---"); PrintInfo (info df);
       Print (nl ++ rule); Print "STEP 3: DATA QUALITY ASSESSMENT"; Print rule;
       Print (nl ++ "--- 3.1 Missing Value Report ---"); PrintMissing (missing_df df);
       Print (nl ++ "--- 3.2 Numerical Feature Descriptive Statistics ---") ] ++ rest)%list.
Proof.
  rewrite main_good. unfold analyse, quality.
  destruct (getitems ["budget"; "revenue"; "runtime"; "vote_average"] df) as [e | sel].
  - exists []. reflexivity.
  - eexists. cbn [trace fst]. rewrite !trace_bind. cbn [result snd inspect banner print emit bind fst trace app].
    reflexivity.
Qed.

(** ** The shape of a box *)

(** The box of a non-empty array is well formed: the whiskers enclose the
    quartiles, which enclose the median, and the whiskers stay inside the
    range of the data; every datum is either between the whiskers or drawn
    as a flier, never both. *)
Theorem box_well_formed (x : Q) (rest : list Q) :
  let b := boxplot_stats (3 # 2) (x :: rest) in
  (np_min x rest <= b_whislo b /\ b_whislo b <= b_q1 b /\ b_q1 b <= b_med b /\
   b_med b <= b_q3 b /\ b_q3 b <= b_whishi b /\ b_whishi b <= np_max x rest) /\
  (forall v, In v (x :: rest) ->
     (b_whislo b <= v <= b_whishi b /\ ~ In v (b_fliers b)) \/
     (In v (b_fliers b) /\ ~ b_whislo b <= v <= b_whishi b)) /\
  (forall v, In v (b_fliers b) -> In v (x :: rest)).
Proof.
  intros b.
  assert (Hne : x :: rest <> []) by discriminate.
  assert (Q12 : quantile (1 # 4) (x :: rest) <= quantile (1 # 2) (x :: rest))
    by (apply quantile_mono; try lra; exact Hne).
  assert (Q23 : quantile (1 # 2) (x :: rest) <= quantile (3 # 4) (x :: rest))
    by (apply quantile_mono; try lra; exact Hne).
  destruct (quantile_within (1 # 4) x rest) as [Q1lo _]; [lra | lra |].
  destruct (quantile_within (3 # 4) x rest) as [_ Q3hi]; [lra | lra |].
  assert (Fl : forall v, In v (b_fliers b) <->
                         In v (x :: rest) /\ (v < b_whislo b \/ b_whishi b < v)).
  { intros v. unfold b at 1, boxplot_stats. cbv zeta. cbn [b_fliers].
    rewrite in_app_iff, !filter_In, !Qltb_lt. fold b. tauto. }
  assert (Lo : np_min x rest <= b_whislo b /\ b_whislo b <= b_q1 b).
  { unfold b, boxplot_stats. cbv zeta. cbn [b_whislo b_q1].
    destruct (filter _ (x :: rest)) as [| w ws] eqn:F; [split; [exact Q1lo | lra] |].
    destruct (Qltb (quantile (1 # 4) (x :: rest)) (np_min w ws)) eqn:E;
      [split; [exact Q1lo | lra] |].
    split.
    - apply np_min_le. pose proof (np_min_in w ws) as I. rewrite <- F in I.
      apply filter_In in I. tauto.
    - destruct (Qlt_le_dec (quantile (1 # 4) (x :: rest)) (np_min w ws)) as [L | L];
        [apply Qltb_lt in L; congruence | exact L]. }
  assert (Hi : b_q3 b <= b_whishi b /\ b_whishi b <= np_max x rest).
  { unfold b, boxplot_stats. cbv zeta. cbn [b_whishi b_q3].
    destruct (filter _ (x :: rest)) as [| w ws] eqn:F; [split; [lra | exact Q3hi] |].
    destruct (Qltb (np_max w ws) (quantile (3 # 4) (x :: rest))) eqn:E;
      [split; [lra | exact Q3hi] |].
    split.
    - destruct (Qlt_le_dec (np_max w ws) (quantile (3 # 4) (x :: rest))) as [L | L];
        [apply Qltb_lt in L; congruence | exact L].
    - apply np_max_ge. pose proof (np_max_in w ws) as I. rewrite <- F in I.
      apply filter_In in I. tauto. }
  split; [| split].
  - change (b_q1 b) with (quantile (1 # 4) (x :: rest)) in *.
    change (b_q3 b) with (quantile (3 # 4) (x :: rest)) in *.
    change (b_med b) with (quantile (1 # 2) (x :: rest)).
    tauto.
  - intros v Hv. rewrite Fl.
    destruct (Qlt_le_dec v (b_whislo b)) as [L | L].
    + right. split; [tauto | lra].
    + destruct (Qlt_le_dec (b_whishi b) v) as [G | G].
      * right. split; [tauto | lra].
      * left. split; [tauto |]. intros [_ [H | H]]; lra.
  - intros v Hv. apply Fl in Hv. tauto.
Qed.

(** ** Quantiles and the order of the rows *)

(** The quantiles and the outliers of a column do not depend on the order
    of its rows: two arrangements of the same values have the same
    quantiles, and their boxes mark the same values as fliers. *)
Theorem quantiles_ignore_row_order (xs ys : list Q) :
  Permutation xs ys -> xs <> [] ->
  (forall p, quantile p xs == quantile p ys) /\
  (forall v, In v (b_fliers (boxplot_stats (3 # 2) xs)) <->
             In v (b_fliers (boxplot_stats (3 # 2) ys))).
Proof.
  intros P Hx.
  assert (Hy : ys <> []).
  { intros E. subst ys. apply Permutation_sym, Permutation_nil in P. contradiction. }
  split.
  - intros p. now apply quantile_perm.
  - intros v. rewrite (fliers_beyond_fences xs Hx), (fliers_beyond_fences ys Hy).
    rewrite (quantile_perm (1 # 4) _ _ P), (quantile_perm (3 # 4) _ _ P).
    split; intros [I H]; (split; [| exact H]).
    + exact (Permutation_in _ P I).
    + exact (Permutation_in _ (Permutation_sym P) I).
Qed.

(** The theorem at the runtime column of the built-in table and the same
    cells with the first two exchanged. *)
Lemma quantiles_ignore_row_order_witness :
  quantile (1 # 4) [162; 194; 143; 122; 148] == quantile (1 # 4) [194; 162; 143; 122; 148].
Proof.
  refine (proj1 (quantiles_ignore_row_order [162; 194; 143; 122; 148]
                   [194; 162; 143; 122; 148] _ _) (1 # 4)).
  - apply perm_swap.
  - discriminate.
Defined.

(** ** Percentages of the missing-value report *)

Lemma Qnat_le m n : (m <= n)%nat -> Qnat m <= Qnat n.
Proof. intros H. unfold Qnat. rewrite <- Zle_Qle. lia. Qed.

Lemma Qnat_inj m n : Qnat m == Qnat n -> m = n.
Proof.
  unfold Qnat. intros H. apply Nat2Z.inj. unfold Qeq in H. simpl in H. lia.
Qed.

(** In the report on a well-formed table with at least one row every
    count is at most the number of rows and every percentage is a number
    between 0 and 100; it is 0 exactly for a column without a missing
    cell and 100 exactly for a column without a present cell. *)
Theorem missing_percentage_range (df : DataFrame) :
  well_formed df -> (0 < len df)%nat ->
  forall row, In row (missing_df df) ->
    (m_count row <= len df)%nat /\
    exists q, m_pct row = Fin q /\ 0 <= q /\ q <= 100 /\
              (q == 0 <-> m_count row = 0%nat) /\
              (q == 100 <-> m_count row = len df).
Proof.
  intros [_ WF] Hn row Hrow. rewrite missing_df_rows in Hrow.
  apply (Permutation_in _ (sort_desc_perm _ _)) in Hrow.
  apply in_map_iff in Hrow. destruct Hrow as [nc [<- Hnc]].
  rewrite Forall_forall in WF. specialize (WF nc Hnc).
  pose proof (col_missing_le (snd nc)) as Hle. rewrite WF in Hle.
  unfold report_row, true_divide. cbn [m_count m_pct].
  split; [exact Hle |].
  rewrite Qnat_eq0. destruct (len df) as [| n] eqn:E; [lia |]. simpl Nat.eqb. cbv iota.
  cbn [fscale]. eexists. split; [reflexivity |].
  pose proof (Qnat_pos (S n) Hn) as P.
  pose proof (Qnat_le _ _ Hle) as L.
  assert (N0 : 0 <= Qnat (col_missing (snd nc))).
  { change 0 with (Qnat 0). apply Qnat_le. lia. }
  set (c := Qnat (col_missing (snd nc))) in *. set (m := Qnat (S n)) in *.
  assert (D : 0 <= c / m) by (apply Qle_shift_div_l; lra).
  assert (U : c / m <= 1) by (apply Qle_shift_div_r; lra).
  assert (R : c / m * m == c) by (field; lra).
  split; [lra |]. split; [lra |]. split.
  - split; intros H.
    + apply Qnat_inj. fold c. change (Qnat 0) with 0.
      assert (Z : c / m == 0) by lra. rewrite Z in R. lra.
    + unfold c. rewrite H. change (Qnat 0) with 0. field. lra.
  - split; intros H.
    + apply Qnat_inj. fold c m.
      assert (Z : c / m == 1) by lra. rewrite Z in R. lra.
    + unfold c. rewrite H. fold m. field. lra.
Qed.

Lemma dummy_well_formed : well_formed dummy.
Proof.
  split.
  - repeat constructor; simpl; intuition discriminate.
  - repeat constructor.
Qed.

(** ** [head] *)

Lemma col_head_len k c : col_len (col_head k c) = Nat.min k (col_len c).
Proof. destruct c; simpl; apply length_firstn. Qed.

Lemma col_head_all k c : (col_len c <= k)%nat -> col_head k c = c.
Proof. destruct c; simpl; intros H; f_equal; now apply firstn_all2. Qed.

(** [df.head()] of a well-formed table is a well-formed table with the
    same columns and the first five rows, and the whole table when it has
    five rows or fewer. *)
Theorem head_first_rows (df : DataFrame) :
  well_formed df ->
  well_formed (head df) /\
  map fst (head df) = map fst df /\
  shape (head df) = (Nat.min 5 (len df), length df) /\
  ((len df <= 5)%nat -> head df = df).
Proof.
  intros [ND WF].
  assert (Names : map fst (head df) = map fst df).
  { unfold head. rewrite map_map. reflexivity. }
  assert (Len : len (head df) = Nat.min 5 (len df)).
  { destruct df as [| [n c] r]; [reflexivity | simpl; apply col_head_len]. }
  split; [| split; [exact Names | split]].
  - split; [now rewrite Names |].
    rewrite Len. unfold head. rewrite Forall_forall in *. intros nc H.
    apply in_map_iff in H. destruct H as [[n c] [<- Hin]]. simpl.
    rewrite col_head_len. specialize (WF (n, c) Hin). simpl in WF. now rewrite WF.
  - unfold shape. rewrite Len. unfold head. now rewrite length_map.
  - intros H. unfold head. rewrite <- (map_id df) at 2. apply map_ext_in.
    intros [n c] Hin. simpl. f_equal. apply col_head_all.
    rewrite Forall_forall in WF. specialize (WF (n, c) Hin). simpl in WF. lia.
Qed.

(** The theorem at the first row of the report on the built-in table. *)
Lemma missing_percentage_range_witness :
  exists q, Fin (Qnat 0 / Qnat 5 * 100) = Fin q /\ 0 <= q /\ q <= 100 /\
            (q == 0 <-> 0%nat = 0%nat) /\ (q == 100 <-> 0%nat = len dummy).
Proof.
  exact (proj2 (missing_percentage_range dummy dummy_well_formed (Nat.lt_0_succ 4)
                  {| m_name := "title"; m_count := 0;
                     m_pct := Fin (Qnat 0 / Qnat 5 * 100) |}
                  (or_introl eq_refl))).
Defined.

(** The theorem at the built-in table. *)
Lemma head_first_rows_witness : shape (head dummy) = (Nat.min 5 (len dummy), length dummy).
Proof. exact (proj1 (proj2 (proj2 (head_first_rows dummy dummy_well_formed)))). Defined.

(** ** Bounds of the correlation *)

Lemma square_lt (u v : Q) : 0 <= u -> u < v -> u * u < v * v.
Proof.
  intros H0 H.
  assert (P1 : 0 <= u * (v - u)) by (apply Qmult_le_0_compat; lra).
  assert (P2 : 0 < v * (v - u)) by (apply Qmult_lt_0_compat; lra).
  lra.
Qed.

Lemma square_nonneg (u : Q) : 0 <= u * u.
Proof.
  destruct (Qlt_le_dec u 0) as [N | P].
  - assert (H : 0 <= (- u) * (- u)) by (apply Qmult_le_0_compat; lra). lra.
  - apply Qmult_le_0_compat; assumption.
Qed.

Lemma cauchy_schwarz_step (A B C a b : Q) :
  0 <= A -> 0 <= B -> C * C <= A * B ->
  (C + a * b) * (C + a * b) <= (A + a * a) * (B + b * b).
Proof.
  intros HA HB HC.
  assert (K : 2 * (a * b) * C <= A * (b * b) + B * (a * a)).
  { destruct (Qlt_le_dec (A * (b * b) + B * (a * a)) (2 * (a * b) * C)) as [L | L];
      [exfalso | exact L].
    pose proof (square_nonneg a) as Na. pose proof (square_nonneg b) as Nb.
    assert (N : 0 <= A * (b * b) + B * (a * a)).
    { assert (0 <= A * (b * b)) by (apply Qmult_le_0_compat; assumption).
      assert (0 <= B * (a * a)) by (apply Qmult_le_0_compat; assumption). lra. }
    pose proof (square_lt _ _ N L) as S1.
    assert (S2 : 4 * (A * B) * ((a * b) * (a * b))
                 <= (A * (b * b) + B * (a * a)) * (A * (b * b) + B * (a * a))).
    { pose proof (square_nonneg (A * (b * b) - B * (a * a))) as Sq. lra. }
    assert (S3 : (C * C) * ((a * b) * (a * b)) <= (A * B) * ((a * b) * (a * b))).
    { apply Qmult_le_compat_r; [exact HC | apply square_nonneg]. }
    lra. }
  lra.
Qed.

(** The inequality of Cauchy and Schwarz for two families of numbers. *)
Lemma cauchy_schwarz {T : Type} (f g : T -> Q) (l : list T) :
  sumQ (map (fun t => f t * g t) l) * sumQ (map (fun t => f t * g t) l) <=
  sumQ (map (fun t => f t * f t) l) * sumQ (map (fun t => g t * g t) l).
Proof.
  induction l as [| t l IH]; simpl.
  - lra.
  - pose proof (sumQ_squares_nonneg f l) as HA.
    pose proof (sumQ_squares_nonneg g l) as HB.
    pose proof (cauchy_schwarz_step _ _ _ (f t) (g t) HA HB IH) as S.
    lra.
Qed.

(** The numerator of a defined entry is bounded by its denominator. *)
Lemma pearson_bounded ps c d : pearson ps = CorrVal c d -> c * c <= d /\ 0 < d.
Proof.
  intros H. split; [| exact (pearson_radicand_positive _ _ _ H)].
  unfold pearson in H. destruct (length ps <? 1)%nat; [discriminate |].
  destruct (Qeq_bool _ 0); [discriminate |]. inversion H; subst c d.
  unfold co_dev, ssq_dev. rewrite !map_map.
  apply (cauchy_schwarz (fun p => fst p - mean (map fst ps))
                        (fun p => snd p - mean (map snd ps)) ps).
Qed.

Lemma corr_R_bounded c d r :
  c * c <= d -> 0 < d -> corr_R (CorrVal c d) = Some r -> (-1 <= r <= 1)%R.
Proof.
  intros Hc Hd H. simpl in H. inversion H; subst r.
  apply Qle_Rle in Hc. rewrite Q2R_mult in Hc.
  apply Qlt_Rlt in Hd. rewrite RMicromega.Q2R_0 in Hd.
  pose proof (sqrt_lt_R0 _ Hd) as Hs.
  assert (Hq : (sqrt (Q2R d) * sqrt (Q2R d) = Q2R d)%R) by (apply sqrt_sqrt; lra).
  assert (Habs : (Rabs (Q2R c / sqrt (Q2R d)) <= 1)%R);
    [| pose proof (Rle_abs (Q2R c / sqrt (Q2R d))) as U;
       pose proof (Rle_abs (- (Q2R c / sqrt (Q2R d)))) as L;
       rewrite Rabs_Ropp in L; split; lra].
  rewrite <- (Rabs_pos_eq 1) by lra. apply Rsqr_le_abs_0. unfold Rsqr.
  replace (Q2R c / sqrt (Q2R d) * (Q2R c / sqrt (Q2R d)))%R
    with ((Q2R c * Q2R c) / (sqrt (Q2R d) * sqrt (Q2R d)))%R by (field; lra).
  rewrite Hq. apply (Rmult_le_reg_r (Q2R d)); [exact Hd |].
  replace (Q2R c * Q2R c / Q2R d * Q2R d)%R with (Q2R c * Q2R c)%R by (field; lra).
  lra.
Qed.

(** Every entry of the correlation matrix is NaN or a number between -1
    and 1. *)
Theorem corr_between_minus_one_and_one (ndf : NumFrame) (i j : nat) :
  (i < length ndf)%nat -> (j < length ndf)%nat ->
  match corr_R (entry (corr ndf) i j) with
  | Some r => (-1 <= r <= 1)%R
  | None => entry (corr ndf) i j = CorrNaN
  end.
Proof.
  intros Hi Hj. rewrite entry_corr by assumption. unfold corr_entry.
  destruct (pearson (pairwise (column_cells ndf i) (column_cells ndf j)))
    as [| c d] eqn:E; [reflexivity |].
  destruct (pearson_bounded _ _ _ E) as [B P].
  exact (corr_R_bounded c d _ B P eq_refl).
Qed.

(** The theorem at the vote_average and revenue columns of the built-in
    table. *)
Lemma corr_between_minus_one_and_one_witness :
  match corr_R (entry (corr [("vote_average", [Some (72 # 10); Some (75 # 10); Some (78 # 10);
                                                Some (84 # 10); Some (88 # 10)]);
                             ("revenue", [Some 2787965087; Some 2257844554; Some 1518815515;
                                          Some 1074219000; Some 825532764])]) 0 1) with
  | Some r => (-1 <= r <= 1)%R
  | None => entry (corr [("vote_average", [Some (72 # 10); Some (75 # 10); Some (78 # 10);
                                           Some (84 # 10); Some (88 # 10)]);
                         ("revenue", [Some 2787965087; Some 2257844554; Some 1518815515;
                                      Some 1074219000; Some 825532764])]) 0 1 = CorrNaN
  end.
Proof.
  exact (corr_between_minus_one_and_one
           [("vote_average", [Some (72 # 10); Some (75 # 10); Some (78 # 10);
                              Some (84 # 10); Some (88 # 10)]);
            ("revenue", [Some 2787965087; Some 2257844554; Some 1518815515;
                         Some 1074219000; Some 825532764])] 0 1 (Nat.lt_0_succ 1) (le_n 2)).
Defined.

(** ** The student portal *)

Section PortalFacts.

Import Portal.

Variables user_row student_row DB : Type.
Variable select_user : DB -> string -> string -> option user_row.
Variable select_students : DB -> list student_row.
Variable insert_student : DB -> student_form -> DB.

Local Notation "'handle'" := (Portal.handle select_user select_students insert_student).
Local Notation "'run'" := (Portal.run select_user select_students insert_student).
Local Notation "'logs_in'" := (Portal.logs_in select_user).
Local Notation "'state'" := (Portal.state user_row DB).

(** What one request can change: nothing, the session by a login that the
    database accepts, or the database by a complete submission. *)
Lemma handle_effect (st : state) (rq : request) :
  snd (handle st rq) = st \/
  (exists u, logs_in st rq u /\
             handle st rq = (Redirect "/dashboard", {| db := db st; session := Some u |})) \/
  (exists s, submits rq s /\
             handle st rq = (Redirect "/students",
                             {| db := insert_student (db st) s; session := session st |})).
Proof.
  unfold Portal.handle.
  destruct (String.eqb (path rq) "/") eqn:E0;
    [destruct (meth rq); left; reflexivity |].
  destruct (String.eqb (path rq) "/login") eqn:E1.
  { apply String.eqb_eq in E1. unfold login.
    destruct (meth rq) eqn:M; [left; reflexivity |].
    destruct (field "username" (form rq)) as [uname |] eqn:U; [| left; reflexivity].
    destruct (field "password" (form rq)) as [pwd |] eqn:P; [| left; reflexivity].
    destruct (select_user (db st) uname pwd) as [u |] eqn:S; [| left; reflexivity].
    right; left. exists u. split; [| reflexivity].
    split; [exact E1 |]. split; [exact M |]. now exists uname, pwd. }
  destruct (String.eqb (path rq) "/dashboard") eqn:E2;
    [destruct (meth rq); [unfold dashboard; destruct (session st) |]; left; reflexivity |].
  destruct (String.eqb (path rq) "/students") eqn:E3;
    [destruct (meth rq); left; reflexivity |].
  destruct (String.eqb (path rq) "/add_student") eqn:E4; [| left; reflexivity].
  apply String.eqb_eq in E4. unfold add_student.
  destruct (meth rq) eqn:M; [left; reflexivity |].
  destruct (read_student (form rq)) as [s |] eqn:R; [| left; reflexivity].
  right; right. exists s. split; [| reflexivity]. now split.
Qed.

(** A request changes the database only as a complete submission of the
    student form, by the insertion of the submitted values, and changes
    the session only as a login that the database accepts, to the row
    found; every other request, and every rejected one, leaves the state
    as it is. *)
Theorem state_changes (st : state) (rq : request) :
  (db (snd (handle st rq)) = db st \/
   exists s, submits rq s /\ db (snd (handle st rq)) = insert_student (db st) s) /\
  (session (snd (handle st rq)) = session st \/
   exists u, logs_in st rq u /\ session (snd (handle st rq)) = Some u).
Proof.
  destruct (handle_effect st rq) as [E | [[u [L E]] | [s [S E]]]]; rewrite E; simpl.
  - split; left; reflexivity.
  - split; [left; reflexivity | right; now exists u].
  - split; [right; now exists s | left; reflexivity].
Qed.

(** A GET request never changes the database or the session. *)
Theorem get_is_safe (st : state) (rq : request) :
  meth rq = GET -> snd (handle st rq) = st.
Proof.
  intros G.
  destruct (handle_effect st rq) as [E | [[u [[_ [M _]] _]] | [s [[_ [M _]] _]]]];
    [exact E | congruence | congruence].
Qed.

(** No route logs a client out: once the session holds a user it holds
    one after every further sequence of requests. *)
Theorem session_is_kept (rqs : list request) (st : state) (u : user_row) :
  session st = Some u -> exists u', session (run rqs st) = Some u'.
Proof.
  revert st u. induction rqs as [| rq rest IH]; intros st u H; simpl.
  - now exists u.
  - destruct (proj2 (state_changes st rq)) as [E | [u' [_ E]]].
    + apply (IH _ u). now rewrite E.
    + now apply (IH _ u').
Qed.

Lemma session_origin (rqs : list request) (st : state) (u : user_row) :
  session (run rqs st) = Some u ->
  session st = Some u \/
  exists pre rq post, rqs = (pre ++ rq :: post)%list /\ logs_in (run pre st) rq u.
Proof.
  revert st. induction rqs as [| rq rest IH]; intros st H; simpl in H.
  - now left.
  - destruct (IH _ H) as [E | (pre & rq' & post & -> & L)].
    + destruct (proj2 (state_changes st rq)) as [E' | [u' [L E']]].
      * left. congruence.
      * right. exists [], rq, rest. split; [reflexivity |].
        simpl. assert (u' = u) by congruence. now subst u'.
    + right. exists (rq :: pre), rq', post. split; [reflexivity | exact L].
Qed.

(** The dashboard is shown only after a login: when a client that starts
    without a session is answered with the dashboard of a user row, then
    one of its earlier requests was a POST to /login with a name and a
    password for which the database, as it was then, returned that row. *)
Theorem dashboard_needs_login (rqs : list request) (st : state) (rq : request)
    (u : user_row) :
  session st = None ->
  fst (handle (run rqs st) rq) = DashboardPage u ->
  exists pre l post, rqs = (pre ++ l :: post)%list /\ logs_in (run pre st) l u.
Proof.
  intros H0 H.
  assert (S : session (run rqs st) = Some u).
  { revert H. unfold Portal.handle.
    destruct (String.eqb (path rq) "/"); [destruct (meth rq); discriminate |].
    destruct (String.eqb (path rq) "/login").
    { unfold login. destruct (meth rq); [discriminate |].
      destruct (field "username" (form rq)); [| discriminate].
      destruct (field "password" (form rq)); [| discriminate].
      destruct (select_user _ _ _); discriminate. }
    destruct (String.eqb (path rq) "/dashboard").
    { destruct (meth rq); [| discriminate]. unfold dashboard.
      destruct (session (run rqs st)); [| discriminate].
      simpl. intros E. inversion E. reflexivity. }
    destruct (String.eqb (path rq) "/students"); [destruct (meth rq); discriminate |].
    destruct (String.eqb (path rq) "/add_student"); [| discriminate].
    unfold add_student. destruct (meth rq); [discriminate |].
    destruct (read_student (form rq)); discriminate. }
  destruct (session_origin rqs st u S) as [E | E]; [congruence | exact E].
Qed.

(** The student pages ask for no login: the list of students and the
    student form answer, and the form inserts, in the same way whatever
    the session holds. *)
Theorem student_pages_ignore_session (d : DB) (s1 s2 : option user_row) (rq : request) :
  path rq = "/students" \/ path rq = "/add_student" ->
  fst (handle {| db := d; session := s1 |} rq) = fst (handle {| db := d; session := s2 |} rq) /\
  db (snd (handle {| db := d; session := s1 |} rq))
  = db (snd (handle {| db := d; session := s2 |} rq)).
Proof.
  intros [P | P]; unfold Portal.handle; rewrite P; simpl.
  - destruct (meth rq); split; reflexivity.
  - unfold add_student. destruct (meth rq); [split; reflexivity |].
    destruct (read_student (form rq)); split; reflexivity.
Qed.

End PortalFacts.

(** The theorem at the list of students requested by a client that is not
    logged in. *)
Lemma get_is_safe_witness :
  snd (Portal.demo_handle Portal.demo_start (Portal.get "/students")) = Portal.demo_start.
Proof.
  exact (get_is_safe _ _ _ Portal.demo_select_user Portal.demo_select_students
           Portal.demo_insert_student Portal.demo_start (Portal.get "/students") eq_refl).
Defined.

(** The theorem at two requests after a login. *)
Lemma session_is_kept_witness :
  exists u, Portal.session
              (Portal.demo_run [Portal.get "/"; Portal.get "/students"]
                 (snd (Portal.demo_handle Portal.demo_start Portal.demo_login)))
            = Some u.
Proof.
  exact (session_is_kept _ _ _ Portal.demo_select_user Portal.demo_select_students
           Portal.demo_insert_student [Portal.get "/"; Portal.get "/students"]
           (snd (Portal.demo_handle Portal.demo_start Portal.demo_login))
           ("ann", "secret") eq_refl).
Defined.

(** The theorem at the dashboard requested after one login. *)
Lemma dashboard_needs_login_witness :
  exists pre l post,
    [Portal.demo_login] = (pre ++ l :: post)%list /\
    Portal.logs_in Portal.demo_select_user (Portal.demo_run pre Portal.demo_start) l
      ("ann", "secret").
Proof.
  exact (dashboard_needs_login _ _ _ Portal.demo_select_user Portal.demo_select_students
           Portal.demo_insert_student [Portal.demo_login] Portal.demo_start
           (Portal.get "/dashboard") ("ann", "secret") eq_refl eq_refl).
Defined.

(** The theorem at the list of students, with and without a session. *)
Lemma student_pages_ignore_session_witness :
  fst (Portal.demo_handle {| Portal.db := Portal.db Portal.demo_start;
                             Portal.session := None |} (Portal.get "/students"))
  = fst (Portal.demo_handle {| Portal.db := Portal.db Portal.demo_start;
                               Portal.session := Some ("ann", "secret") |}
           (Portal.get "/students")).
Proof.
  exact (proj1 (student_pages_ignore_session _ _ _ Portal.demo_select_user
                  Portal.demo_select_students Portal.demo_insert_student
                  (Portal.db Portal.demo_start) None (Some ("ann", "secret"))
                  (Portal.get "/students") (or_introl eq_refl))).
Defined.
